(** * Storage manager of the Neurolora MCP server: model and properties

    A shallow embedding of [mcp_server_neurolorap/storage.py].  The module
    drives a POSIX filesystem through [pathlib] and [os]; the embedding gives
    those calls an explicit semantics over a finite map from canonical
    locations to nodes, and threads the filesystem, the count of existence
    observations and the trace of logging, sleeping and syncing through a
    state-and-exception monad.

    The model is that of one process on a POSIX system: directories, regular
    files and symbolic links, resolved as the kernel resolves them; no
    permissions, no hard links, no other process.  File contents are text or
    undecodable bytes; newline translation is left out. *)

From Stdlib Require Import String Ascii List Bool Arith Lia.
From stdpp Require Import base option list gmap strings pretty.

Open Scope string_scope.
Open Scope list_scope.

(** ** Pure paths ([pathlib.PurePosixPath]) *)

(** A path is a flag telling whether it is anchored at the root and the list
    of its components.  [pathlib] drops empty components and ["."] when it
    parses a string and keeps [".."]. *)
Record Path := mkPath { absolute : bool; parts : list string }.

#[global] Instance Path_eq_dec : EqDecision Path.
Proof. solve_decision. Defined.

Definition dotdot : string := "..".
Definition dot : string := ".".

(** Components that [pathlib] drops while parsing. *)
Definition skipped (c : string) : bool :=
  bool_decide (c = EmptyString) || bool_decide (c = dot).

(** A component naming a directory entry: neither dropped nor [".."]. *)
Definition plain (c : string) : bool :=
  negb (skipped c) && negb (bool_decide (c = dotdot)).

(** [s.split("/")]: the fields between slashes, the current field being
    accumulated in [cur]. *)
Fixpoint split_slash (cur : string) (s : string) : list string :=
  match s with
  | EmptyString => [cur]
  | String a rest =>
      if Ascii.eqb a "/"%char then cur :: split_slash EmptyString rest
      else split_slash (cur +:+ String a EmptyString) rest
  end.

Definition starts_with_slash (s : string) : bool :=
  match s with
  | String a _ => Ascii.eqb a "/"%char
  | EmptyString => false
  end.

(** [PurePosixPath(s)]. *)
Definition parse (s : string) : Path :=
  {| absolute := starts_with_slash s;
     parts := filter (fun c => negb (skipped c)) (split_slash EmptyString s) |}.

(** [p / s] for a string [s]: an anchored right operand replaces the left. *)
Definition joinpath (p : Path) (s : string) : Path :=
  let q := parse s in
  if absolute q then q
  else {| absolute := absolute p; parts := parts p ++ parts q |}.

Infix "//" := joinpath (at level 40, left associativity).

(** [p.name]: the last component, empty when there is none. *)
Definition name (p : Path) : string := List.last (parts p) EmptyString.

(** [p.parent]: the path without its last component; a path without
    components is its own parent. *)
Definition parent (p : Path) : Path :=
  {| absolute := absolute p; parts := removelast (parts p) |}.

(** [str(p)]. *)
Definition str_path (p : Path) : string :=
  match absolute p, parts p with
  | false, [] => dot
  | false, l => String.concat "/" l
  | true, l => "/" +:+ String.concat "/" l
  end.

(** ** [os.path] *)

(** [os.path.normpath] on the components of an anchored path: [".."] pops
    the component before it and is dropped at the root. *)
Definition normpath_abs (comps : list string) : list string :=
  fold_left
    (fun acc c =>
       if bool_decide (c = dotdot) then removelast acc
       else if skipped c then acc
       else acc ++ [c])
    comps [].

(** [os.path.abspath(p)] as a component list, [cwd] being the working
    directory. *)
Definition abspath (cwd : Path) (p : Path) : list string :=
  normpath_abs (if absolute p then parts p else parts cwd ++ parts p).

(** Length of the longest common prefix of two component lists. *)
Fixpoint common_len (a b : list string) : nat :=
  match a, b with
  | x :: a', y :: b' => if bool_decide (x = y) then S (common_len a' b') else 0
  | _, _ => 0
  end.

(** [os.path.relpath(path, start)]: as many [".."] as [start] has components
    below the common prefix, then the rest of [path]; the result is never
    anchored (the empty component list stands for ["."]). *)
Definition relpath (cwd : Path) (path start : Path) : Path :=
  let s := abspath cwd start in
  let p := abspath cwd path in
  let i := common_len s p in
  {| absolute := false; parts := repeat dotdot (length s - i) ++ drop i p |}.

(** ** Filesystem states *)

(** File contents: text that decodes as UTF-8, or bytes that do not. *)
Inductive content :=
| Text (s : string)
| Binary (b : list ascii).

Inductive node :=
| Dir
| File (c : content)
| Link (target : Path).

#[global] Instance content_eq_dec : EqDecision content.
Proof. solve_decision. Defined.
#[global] Instance node_eq_dec : EqDecision node.
Proof. solve_decision. Defined.

(** A canonical location: the names from the root down, none of them a
    symbolic link except possibly the last.  A filesystem maps locations to
    nodes; it is meant to be a tree, every entry lying in a directory. *)
Abbreviation loc := (list string).
Abbreviation FS := (gmap (list string) node).

(** The root directory always exists and is not stored in the map. *)
Definition node_at (fs : FS) (l : loc) : option node :=
  match l with
  | [] => Some Dir
  | _ => fs !! l
  end.

(** ** Path resolution *)

(** The error numbers of the calls.  The model has no permissions, so no call
    fails with [EACCES]; it is there for the handlers that name it. *)
Inductive errno := ENOENT | EEXIST | ENOTDIR | EISDIR | ELOOP | EACCES.

#[global] Instance errno_eq_dec : EqDecision errno.
Proof. solve_decision. Defined.

Inductive result (E A : Type) :=
| Ok (a : A)
| Err (e : E).
Arguments Ok {E A} a.
Arguments Err {E A} e.

(** The kernel gives up with [ELOOP] after following this many links. *)
Definition MAXSYMLINKS : nat := 40.

(** [walk strict follow fuel fs cur comps] resolves the components [comps]
    from the directory at [cur].  [".."] steps to the parent, a link is
    replaced by its target (at most [fuel] times), and the last component is
    followed only when [follow] is set.  With [strict] (the kernel's lookup)
    every component but the last must be a directory or a link to one and
    the answer is the location the path names, present or not; without it
    ([os.path.realpath], non-strict) missing components are appended as they
    are. *)
Fixpoint walk (strict follow : bool) (fuel : nat) (fs : FS) {struct fuel}
  : loc → list string → result errno loc :=
  fix go (cur : loc) (comps : list string) {struct comps} : result errno loc :=
    match comps with
    | [] => Ok cur
    | c :: rest =>
        if skipped c then go cur rest
        else if bool_decide (c = dotdot) then go (removelast cur) rest
        else
          let p := cur ++ [c] in
          let final := bool_decide (rest = []) in
          match fs !! p with
          | Some (Link t) =>
              if final && negb follow then Ok p
              else
                match fuel with
                | 0 => Err ELOOP
                | S fuel' =>
                    walk strict follow fuel' fs
                      (if absolute t then [] else cur) (parts t ++ rest)
                end
          | Some Dir => go p rest
          | Some (File _) =>
              if strict && negb final then Err ENOTDIR else go p rest
          | None =>
              if strict && negb final then Err ENOENT else go p rest
          end
    end.

(** Where resolution of [p] starts. *)
Definition start (cwd p : Path) : loc :=
  if absolute p then [] else parts cwd.

(** The location [p] names for the kernel. *)
Definition locate (follow : bool) (cwd : Path) (fs : FS) (p : Path)
  : result errno loc :=
  walk true follow MAXSYMLINKS fs (start cwd p) (parts p).

(** [os.stat] ([follow]) and [os.lstat]. *)
Definition stat (follow : bool) (cwd : Path) (fs : FS) (p : Path)
  : result errno node :=
  match locate follow cwd fs p with
  | Ok l => match node_at fs l with Some n => Ok n | None => Err ENOENT end
  | Err e => Err e
  end.

(** [Path.exists()], [Path.is_dir()], [Path.is_symlink()]: lookup errors
    count as a negative answer. *)
Definition fs_exists (cwd : Path) (fs : FS) (p : Path) : bool :=
  match stat true cwd fs p with Ok _ => true | Err _ => false end.

Definition fs_is_dir (cwd : Path) (fs : FS) (p : Path) : bool :=
  match stat true cwd fs p with Ok Dir => true | _ => false end.

Definition fs_is_symlink (cwd : Path) (fs : FS) (p : Path) : bool :=
  match stat false cwd fs p with Ok (Link _) => true | _ => false end.

(** [os.readlink]. *)
Definition fs_readlink (cwd : Path) (fs : FS) (p : Path) : option Path :=
  match stat false cwd fs p with Ok (Link t) => Some t | _ => None end.

(** [Path.resolve()] (non-strict): an anchored path, or [ELOOP]. *)
Definition fs_resolve (cwd : Path) (fs : FS) (p : Path) : result errno Path :=
  match walk false true MAXSYMLINKS fs (start cwd p) (parts p) with
  | Ok l => Ok {| absolute := true; parts := l |}
  | Err e => Err e
  end.

(** [os.mkdir]: the last component must not exist, not even as a link. *)
Definition os_mkdir (cwd : Path) (fs : FS) (p : Path) : result errno FS :=
  match locate false cwd fs p with
  | Ok l =>
      match node_at fs l with
      | Some _ => Err EEXIST
      | None => Ok (<[l := Dir]> fs)
      end
  | Err e => Err e
  end.

(** [os.symlink(target, p)]. *)
Definition os_symlink (cwd : Path) (fs : FS) (target p : Path)
  : result errno FS :=
  match locate false cwd fs p with
  | Ok l =>
      match node_at fs l with
      | Some _ => Err EEXIST
      | None => Ok (<[l := Link target]> fs)
      end
  | Err e => Err e
  end.

(** [os.unlink]: removes a file or a link, never a directory. *)
Definition os_unlink (cwd : Path) (fs : FS) (p : Path) : result errno FS :=
  match locate false cwd fs p with
  | Ok l =>
      match node_at fs l with
      | None => Err ENOENT
      | Some Dir => Err EISDIR
      | Some _ => Ok (delete l fs)
      end
  | Err e => Err e
  end.

(** [open(p, "w")] followed by one [write]: creates or truncates the file
    the path leads to. *)
Definition os_write (cwd : Path) (fs : FS) (p : Path) (c : content)
  : result errno FS :=
  match locate true cwd fs p with
  | Ok l =>
      match node_at fs l with
      | Some Dir => Err EISDIR
      | Some (Link _) => Err ELOOP
      | _ => Ok (<[l := File c]> fs)
      end
  | Err e => Err e
  end.

(** [open(p, "r")] followed by reading the raw contents. *)
Definition os_read (cwd : Path) (fs : FS) (p : Path) : result errno content :=
  match stat true cwd fs p with
  | Ok (File c) => Ok c
  | Ok Dir => Err EISDIR
  | Ok (Link _) => Err ELOOP
  | Err e => Err e
  end.

(** ** Exceptions, the world and the monad *)

(** The exceptions the module can meet.  [OSError] carries the error number
    and the file name; [FileNotFoundError], [FileExistsError],
    [NotADirectoryError], [IsADirectoryError] and [PermissionError] are its
    subclasses selected by the error number. *)
Inductive exc :=
| OSError (e : errno) (filename : Path)
| UnicodeDecodeError (filename : Path)
| RuntimeError (msg : string).

#[global] Instance result_eq_dec {E A} `{EqDecision E, EqDecision A} :
  EqDecision (result E A).
Proof. solve_decision. Defined.
#[global] Instance exc_eq_dec : EqDecision exc.
Proof. solve_decision. Defined.

Definition is_PermissionError (e : exc) : bool :=
  match e with OSError EACCES _ => true | _ => false end.

Definition is_UnicodeDecodeError (e : exc) : bool :=
  match e with UnicodeDecodeError _ => true | _ => false end.

(** [IOError] is an alias of [OSError]. *)
Definition is_OSError (e : exc) : bool :=
  match e with OSError _ _ => true | _ => false end.

Definition strerror (e : errno) : string :=
  match e with
  | ENOENT => "[Errno 2] No such file or directory"
  | EEXIST => "[Errno 17] File exists"
  | ENOTDIR => "[Errno 20] Not a directory"
  | EISDIR => "[Errno 21] Is a directory"
  | ELOOP => "[Errno 40] Too many levels of symbolic links"
  | EACCES => "[Errno 13] Permission denied"
  end.

(** [str(e)]. *)
Definition str_exc (e : exc) : string :=
  match e with
  | OSError n p => strerror n +:+ ": '" +:+ str_path p +:+ "'"
  | UnicodeDecodeError p => "'utf-8' codec can't decode bytes"
  | RuntimeError msg => msg
  end.

Inductive level := DEBUG | INFO | WARNING | ERROR.

(** What the module does besides changing the filesystem. *)
Inductive event :=
| Log (lv : level) (msg : string)
| Sleep (ms : nat)
| Fsync (p : Path)
| Sync.

#[global] Instance level_eq_dec : EqDecision level.
Proof. solve_decision. Defined.
#[global] Instance event_eq_dec : EqDecision event.
Proof. solve_decision. Defined.

Record World := mkWorld {
  fsys : FS;            (* the filesystem *)
  nobs : nat;           (* existence observations made so far *)
  trace : list event    (* events, oldest first *)
}.

#[global] Instance World_eq_dec : EqDecision World.
Proof. solve_decision. Defined.

Definition M (A : Type) : Type := World → result exc A * World.

Definition ret {A} (a : A) : M A := λ w, (Ok a, w).

(** Sequencing stops at the first exception and keeps the world as the
    failing step left it. *)
Definition bind {A B} (m : M A) (f : A → M B) : M B := λ w,
  match m w with
  | (Ok a, w') => f a w'
  | (Err e, w') => (Err e, w')
  end.

Declare Scope py_scope.
Notation "x ← y ; z" := (bind y (λ x, z))
  (at level 20, y at level 100, z at level 200, only parsing) : py_scope.
Notation "x ;; z" := (bind x (λ _, z))
  (at level 100, z at level 200, only parsing, right associativity) : py_scope.
Open Scope py_scope.

Definition raise {A} (e : exc) : M A := λ w, (Err e, w).

(** [try: m except ...: h e]: the handler sees the world the body left. *)
Definition try_except {A} (m : M A) (h : exc → M A) : M A := λ w,
  match m w with
  | (Ok a, w') => (Ok a, w')
  | (Err e, w') => h e w'
  end.

Definition emit (ev : event) : M unit := λ w,
  (Ok (), {| fsys := fsys w; nobs := nobs w; trace := trace w ++ [ev] |}).

Definition log (lv : level) (msg : string) : M unit := emit (Log lv msg).

Definition get_fs : M FS := λ w, (Ok (fsys w), w).

Definition put_fs (fs : FS) : M unit := λ w,
  (Ok (), {| fsys := fs; nobs := nobs w; trace := trace w |}).

(** Lifts a filesystem call, turning its error number into an [OSError]
    about [p]. *)
Definition lift_os {A} (p : Path) (r : result errno A) : M A :=
  match r with
  | Ok a => ret a
  | Err e => raise (OSError e p)
  end.

(** The process environment. *)
Record Env := mkEnv {
  home : option Path;   (* [Path.home()], when it can be determined *)
  cwd : Path;           (* [Path.cwd()] *)
  module_dir : Path     (* [Path(__file__).parent] *)
}.

Section Storage.

Context (env : Env).

(** What an existence check reports: [observe k b] is the answer of the
    [k]-th check when the filesystem's own answer is [b].  The identity
    is a filesystem whose changes are visible at once. *)
Context (observe : nat → bool → bool).

(** [p.exists()]. *)
Definition path_exists (p : Path) : M bool := λ w,
  (Ok (observe (nobs w) (fs_exists (cwd env) (fsys w) p)),
   {| fsys := fsys w; nobs := S (nobs w); trace := trace w |}).

Definition path_is_symlink (p : Path) : M bool :=
  fs ← get_fs; ret (fs_is_symlink (cwd env) fs p).

Definition path_is_dir (p : Path) : M bool :=
  fs ← get_fs; ret (fs_is_dir (cwd env) fs p).

(** [p.resolve()]; a loop of links is reported as a [RuntimeError]. *)
Definition path_resolve (p : Path) : M Path :=
  fs ← get_fs;
  match fs_resolve (cwd env) fs p with
  | Ok q => ret q
  | Err _ => raise (RuntimeError ("Symlink loop from '" +:+ str_path p +:+ "'"))
  end.

Definition path_unlink (p : Path) : M unit :=
  fs ← get_fs; fs' ← lift_os p (os_unlink (cwd env) fs p); put_fs fs'.

Definition path_symlink_to (p target : Path) : M unit :=
  fs ← get_fs; fs' ← lift_os p (os_symlink (cwd env) fs target p); put_fs fs'.

(** [p.mkdir(parents=False, exist_ok=True)]. *)
Definition path_mkdir (p : Path) : M unit :=
  fs ← get_fs;
  match os_mkdir (cwd env) fs p with
  | Ok fs' => put_fs fs'
  | Err ENOENT => raise (OSError ENOENT p)
  | Err e => if fs_is_dir (cwd env) fs p then ret () else raise (OSError e p)
  end.

(** [p.mkdir(parents=True, exist_ok=True)]: on [FileNotFoundError] the
    parent is made first, unless the path is its own parent.  The recursion
    follows [p.parent], so [n] counts the components of [p]. *)
Fixpoint mkdir_parents (n : nat) (p : Path) : M unit :=
  fs ← get_fs;
  match os_mkdir (cwd env) fs p with
  | Ok fs' => put_fs fs'
  | Err ENOENT =>
      match n with
      | 0 => raise (OSError ENOENT p)
      | S n' =>
          if bool_decide (parent p = p) then raise (OSError ENOENT p)
          else mkdir_parents n' (parent p);; path_mkdir p
      end
  | Err e => if fs_is_dir (cwd env) fs p then ret () else raise (OSError e p)
  end.

Definition path_mkdir_parents (p : Path) : M unit :=
  mkdir_parents (length (parts p)) p.

(** [with open(p, "w", encoding="utf-8") as f: f.write(s)]. *)
Definition write_text (p : Path) (s : string) : M unit :=
  fs ← get_fs; fs' ← lift_os p (os_write (cwd env) fs p (Text s)); put_fs fs'.

(** [with open(p, "r", encoding="utf-8") as f: f.read()]. *)
Definition read_text (p : Path) : M string :=
  fs ← get_fs;
  c ← lift_os p (os_read (cwd env) fs p);
  match c with
  | Text s => ret s
  | Binary _ => raise (UnicodeDecodeError p)
  end.

(** [for _ in range(n): if check: break; time.sleep(0.1)] with its [else]
    clause. *)
Fixpoint for_retries (n : nat) (check : M bool) (orelse : M unit) : M unit :=
  match n with
  | 0 => orelse
  | S k =>
      b ← check;
      if b then ret () else emit (Sleep 100);; for_retries k check orelse
  end.

(** *** [StorageManager] *)

Record StorageManager := mkStorageManager {
  project_root : Path;
  project_name : string;
  mcp_docs_dir : Path;
  project_docs_dir : Path;
  neurolora_link : Path
}.

(** The attributes [__init__] computes, [h] being the home directory.  A
    sub-project identifier counts only when it is a non-empty string. *)
Definition layout (h : Path) (root : Path) (subproject_id : option string)
  : StorageManager :=
  let base_name := name root in
  let project_name :=
    match subproject_id with
    | Some (String a s) => base_name +:+ "-" +:+ String a s
    | _ => base_name
    end in
  let mcp_docs_dir := h // ".mcp-docs" in
  {| project_root := root;
     project_name := project_name;
     mcp_docs_dir := mcp_docs_dir;
     project_docs_dir := mcp_docs_dir // project_name;
     neurolora_link := root // ".neurolora" |}.

(** [Path.home()]. *)
Definition path_home : M Path :=
  match home env with
  | Some h => ret h
  | None => raise (RuntimeError "Could not determine home directory.")
  end.

(** [StorageManager.__init__]. *)
Definition __init__ (project_root : option Path) (subproject_id : option string)
  : M StorageManager :=
  let root := default (cwd env) project_root in
  log INFO "Initializing storage manager";;
  log DEBUG ("Project root: " +:+ str_path root);;
  h ← path_home;
  let self := layout h root subproject_id in
  path_mkdir_parents (mcp_docs_dir self);;
  log DEBUG ("Project name: " +:+ project_name self);;
  log DEBUG ("Project docs dir: " +:+ str_path (project_docs_dir self));;
  log DEBUG ("Neurolora link: " +:+ str_path (neurolora_link self));;
  log INFO "Storage manager initialized";;
  ret self.

Context (self : StorageManager).

(** [StorageManager._create_directories]. *)
Definition _create_directories : M unit :=
  try_except
    (path_mkdir_parents (project_docs_dir self);;
     log INFO ("Created/verified project directory: "
               +:+ str_path (project_docs_dir self));;
     let marker := project_docs_dir self // ".initialized" in
     write_text marker "initialized";;
     emit (Fsync marker);;
     emit Sync;;
     b ← path_exists (project_docs_dir self);
     (if negb b then
        raise (RuntimeError ("Failed to create directory: "
                             +:+ str_path (project_docs_dir self)))
      else ret ());;
     let max_retries := 10 in
     for_retries max_retries
       (path_exists (project_docs_dir self))
       (raise (RuntimeError ("Directory not visible after "
                             +:+ pretty max_retries +:+ " retries: "
                             +:+ str_path (project_docs_dir self))));;
     emit Sync)
    (λ e, log ERROR ("Error creating directories: " +:+ str_exc e);; raise e).

(** [StorageManager._create_or_update_symlink]. *)
Definition _create_or_update_symlink
  (link_path target_path : Path) (link_name : string) : M unit :=
  log DEBUG ("Creating symlink: " +:+ str_path link_path +:+ " -> "
             +:+ str_path target_path);;
  try_except
    (path_mkdir_parents target_path;;
     let relative_target := relpath (cwd env) target_path (parent link_path) in
     b ← path_exists link_path;
     (if b then
        log DEBUG ("Link path exists: " +:+ str_path link_path);;
        s ← path_is_symlink link_path;
        if negb s then
          log WARNING ("Removing non-symlink " +:+ link_name);;
          path_unlink link_path;;
          path_symlink_to link_path relative_target
        else
          r ← path_resolve link_path;
          if bool_decide (r ≠ target_path) then
            log WARNING ("Updating incorrect " +:+ link_name +:+ " symlink");;
            path_unlink link_path;;
            path_symlink_to link_path relative_target
          else ret ()
      else
        log DEBUG "Creating new symlink";;
        path_symlink_to link_path relative_target;;
        log DEBUG ("Created " +:+ link_name +:+ " symlink"));;
     b ← path_exists link_path;
     (if negb b then
        raise (RuntimeError ("Symlink was not created: " +:+ str_path link_path))
      else ret ());;
     s ← path_is_symlink link_path;
     (if negb s then
        raise (RuntimeError ("Path exists but is not a symlink: "
                             +:+ str_path link_path))
      else ret ());;
     resolved ← path_resolve link_path;
     (if bool_decide (resolved ≠ target_path) then
        raise (RuntimeError ("Symlink points to wrong target: "
                             +:+ str_path resolved +:+ " != "
                             +:+ str_path target_path))
      else ret ());;
     log DEBUG "Symlink verified successfully")
    (λ e, log ERROR ("Error creating symlink: " +:+ str_exc e);; raise e).


(** [StorageManager._create_symlinks]. *)
Definition _create_symlinks : M unit :=
  try_except
    (_create_or_update_symlink
       (neurolora_link self) (project_docs_dir self) ".neurolora";;
     emit Sync;;
     let max_retries := 10 in
     for_retries max_retries
       (b ← path_exists (neurolora_link self);
        if b then path_is_symlink (neurolora_link self) else ret false)
       (raise (RuntimeError ("Symlink not visible after "
                             +:+ pretty max_retries +:+ " retries: "
                             +:+ str_path (neurolora_link self))));;
     emit Sync;;
     log INFO ("Symlink created and verified: "
               +:+ str_path (neurolora_link self)))
    (λ e, log ERROR ("Error creating symlinks: " +:+ str_exc e);; raise e).

(** [StorageManager._create_template_file]. *)
Definition _create_template_file
  (template_name output_name : string) (output_dir : option Path) : M unit :=
  try_except
    (let output_file :=
       default (project_docs_dir self) output_dir // output_name in
     b ← path_exists output_file;
     if negb b then
       let template_file := module_dir env // "templates" // template_name in
       t ← path_exists template_file;
       if t then
         try_except
           (content ← read_text template_file;
            write_text output_file content;;
            log DEBUG ("Created " +:+ output_name +:+ " from template"))
           (λ e,
              if is_PermissionError e then
                log ERROR ("Permission denied accessing files: "
                           +:+ str_path output_file +:+ " or "
                           +:+ str_path template_file);;
                raise e
              else if is_UnicodeDecodeError e then
                log ERROR ("Invalid file encoding in template: "
                           +:+ str_path template_file);;
                raise e
              else if is_OSError e then
                log ERROR ("I/O error with files: " +:+ str_exc e);;
                raise e
              else raise e)
       else
         log WARNING ("Template file not found: " +:+ str_path template_file)
     else ret ())
    (λ e,
       if is_PermissionError e || is_UnicodeDecodeError e || is_OSError e then
         log ERROR ("File system error with files: " +:+ str_exc e);;
         raise e
       else
         log ERROR ("Unexpected error with files: " +:+ str_exc e);;
         log DEBUG "Stack trace:";;
         raise e).

(** [StorageManager._create_ignore_file]. *)
Definition _create_ignore_file : M unit :=
  _create_template_file "ignore.template" ".neuroloraignore"
    (Some (project_root self)).

(** [StorageManager._create_task_files]. *)
Definition _create_task_files : M unit :=
  _create_template_file "todo.template.md" "TODO.md" None;;
  _create_template_file "done.template.md" "DONE.md" None.

(** [StorageManager.setup]. *)
Definition setup : M unit :=
  _create_directories;;
  _create_symlinks;;
  _create_ignore_file;;
  _create_task_files;;
  log INFO ("Storage setup complete. Project directory: "
            +:+ str_path (project_docs_dir self)).


End Storage.

(** A filesystem whose changes are visible to the next existence check. *)
Definition immediate : nat → bool → bool := λ _ b, b.

(** The simulated backend whose existence check always answers no. *)
Definition never_visible : nat → bool → bool := λ _ _, false.

(** A backend that answers the first [k] checks faithfully and no from then
    on. *)
Definition visible_until (k : nat) : nat → bool → bool :=
  λ n b, if (n <? k)%nat then b else false.

Definition world0 (fs : FS) : World := {| fsys := fs; nobs := 0; trace := [] |}.

(** The number of milliseconds slept in a trace. *)
Definition slept (tr : list event) : nat :=
  foldr (λ ev acc, match ev with Sleep ms => ms + acc | _ => acc end) 0 tr.

(** The number of sleeps in a trace. *)
Fixpoint sleeps (tr : list event) : nat :=
  match tr with
  | [] => 0
  | Sleep _ :: tr' => S (sleeps tr')
  | _ :: tr' => sleeps tr'
  end.

(** ** A concrete machine

    Home [/tmp/home], project root [/tmp/app], the package installed under
    [/pkg] with its three templates. *)

Definition env_tmp : Env :=
  {| home := Some (parse "/tmp/home");
     cwd := parse "/";
     module_dir := parse "/pkg" |}.

Definition sm_app : StorageManager :=
  layout (parse "/tmp/home") (parse "/tmp/app") None.

Definition fs_fresh : FS :=
  list_to_map
    [ (["tmp"], Dir); (["tmp"; "app"], Dir); (["tmp"; "home"], Dir);
      (["pkg"], Dir); (["pkg"; "templates"], Dir);
      (["pkg"; "templates"; "ignore.template"], File (Text "*.log"));
      (["pkg"; "templates"; "todo.template.md"], File (Text "# TODO"));
      (["pkg"; "templates"; "done.template.md"], File (Text "# DONE")) ].

Definition link_app : Path := neurolora_link sm_app.
Definition docs_app : Path := project_docs_dir sm_app.

(** The same machine with a plain directory where the link should be. *)
Definition fs_link_is_dir : FS :=
  <[ ["tmp"; "app"; ".neurolora"] := Dir ]> fs_fresh.

(** The same machine with a regular file where the link should be. *)
Definition fs_link_is_file : FS :=
  <[ ["tmp"; "app"; ".neurolora"] := File (Text "stray") ]> fs_fresh.

(** The same machine with a link left over from a removed directory. *)
Definition fs_link_dangling : FS :=
  <[ ["tmp"; "app"; ".neurolora"] := Link (parse "/nowhere/old") ]> fs_fresh.

(** The same machine with a link to another directory that exists. *)
Definition fs_link_elsewhere : FS :=
  <[ ["tmp"; "app"; ".neurolora"] := Link (parse "/pkg") ]> fs_fresh.

(** The machine after the documents directory has been made, and its
    filesystem once the marker is written. *)
Definition w_dirs_made : World :=
  snd (path_mkdir_parents env_tmp docs_app (world0 fs_fresh)).

Definition fs_marked : FS :=
  <[ ["tmp"; "home"; ".mcp-docs"; "app"; ".initialized"]
     := File (Text "initialized") ]> (fsys w_dirs_made).

(** The machine after [setup], and after the link alone is reconciled. *)
Definition w_set_up : World :=
  snd (setup env_tmp immediate sm_app (world0 fs_fresh)).

Definition w_linked : World :=
  snd (_create_or_update_symlink env_tmp immediate link_app docs_app
         ".neurolora" (world0 fs_fresh)).

(** The machine after [setup], with the user's own notes in [TODO.md]. *)
Definition w_user_todo : World :=
  world0 (<[ ["tmp"; "home"; ".mcp-docs"; "app"; "TODO.md"]
             := File (Text "buy milk") ]> (fsys w_set_up)).

(** A machine on which the package ships no templates. *)
Definition env_bare : Env :=
  {| home := Some (parse "/tmp/home");
     cwd := parse "/";
     module_dir := parse "/opt/pkg" |}.

Definition fs_bare : FS :=
  list_to_map
    [ (["tmp"], Dir); (["tmp"; "app"], Dir); (["tmp"; "home"], Dir);
      (["tmp"; "home"; ".mcp-docs"], Dir);
      (["tmp"; "home"; ".mcp-docs"; "app"], Dir) ].

(** A machine whose documents directory already holds a marker that is a
    symbolic link to the place of the project's link. *)
Definition fs_stale_marker : FS :=
  list_to_map
    [ (["tmp"], Dir); (["tmp"; "app"], Dir); (["tmp"; "home"], Dir);
      (["tmp"; "home"; ".mcp-docs"], Dir);
      (["tmp"; "home"; ".mcp-docs"; "app"], Dir);
      (["tmp"; "home"; ".mcp-docs"; "app"; ".initialized"],
       Link (parse "/tmp/app/.neurolora")) ].

(** No entry at all is a symbolic link. *)
Definition is_link (nd : node) : bool :=
  match nd with Link _ => true | _ => false end.

Definition nolinks (fs : FS) : Prop :=
  map_Forall (λ _ nd, is_link nd = false) fs.

#[global] Instance nolinks_dec (fs : FS) : Decision (nolinks fs).
Proof. unfold nolinks. apply _. Defined.

(** ** Relations between filesystem states *)

(** [fs'] is [fs] with directories added where nothing was. *)
Definition grows (fs fs' : FS) : Prop :=
  ∀ l, fs' !! l = fs !! l ∨ (fs !! l = None ∧ fs' !! l = Some Dir).


(** Nothing or a regular file: an entry that path resolution cannot pass
    through. *)
Definition leaf (fs : FS) (q : loc) : Prop :=
  fs !! q = None ∨ ∃ c, fs !! q = Some (File c).

(** No symbolic link of [fs] is called [n]. *)
Definition no_link_named (n : string) (fs : FS) : Prop :=
  ∀ l t, fs !! (l ++ [n]) ≠ Some (Link t).

(** A name that stands for itself as a path: one component, no slash, and
    an entry name. *)
Definition simple_name (n : string) : Prop :=
  parse n = {| absolute := false; parts := [n] |} ∧ plain n = true.

(** The names of the regular files the manager writes or reads: the
    marker, the seeded files and their templates. *)
Definition file_names : list string :=
  [ ".initialized"; ".neuroloraignore"; "TODO.md"; "DONE.md";
    "ignore.template"; "todo.template.md"; "done.template.md" ].

(** All the names the manager uses. *)
Definition managed_names : list string := ".neurolora" :: file_names.

(** No symbolic link bears the name of one of the manager's files. *)
Definition no_managed_links (fs : FS) : Prop :=
  ∀ n, n ∈ file_names → no_link_named n fs.

(** The path [p] can be looked up and what is there, if anything, is not a
    symbolic link. *)
Definition not_a_link (cwd : Path) (fs : FS) (p : Path) : Prop :=
  ∃ l, locate false cwd fs p = Ok l ∧ ∀ t, node_at fs l ≠ Some (Link t).

(** ** Specifications of runs *)

(** [m] never changes the filesystem. *)
Definition reads {A} (m : M A) : Prop :=
  ∀ w r w', m w = (r, w') → fsys w' = fsys w.

(** Run on the filesystem [fs], [m] returns [a] and leaves [fs] as it is. *)
Definition returns {A} (m : M A) (fs : FS) (a : A) : Prop :=
  ∀ w, fsys w = fs → ∃ w', m w = (Ok a, w') ∧ fsys w' = fs.

Section Settled.

Context (env : Env) (self : StorageManager).

(** Where a seeded file goes and where its template is looked up. *)
Definition output_file_of (output_name : string) (output_dir : option Path)
  : Path :=
  default (project_docs_dir self) output_dir // output_name.

Definition template_file_of (template_name : string) : Path :=
  module_dir env // "templates" // template_name.

(** The documents directory is a directory and holds the marker. *)
Definition dirs_ready (fs : FS) : Prop :=
  fs_is_dir (cwd env) fs (project_docs_dir self) = true
  ∧ ∃ l, locate true (cwd env) fs (project_docs_dir self // ".initialized")
           = Ok l
         ∧ node_at fs l = Some (File (Text "initialized")).

(** The link is a link that resolves to the documents directory. *)
Definition link_ready (fs : FS) : Prop :=
  fs_exists (cwd env) fs (neurolora_link self) = true
  ∧ fs_is_symlink (cwd env) fs (neurolora_link self) = true
  ∧ fs_resolve (cwd env) fs (neurolora_link self) = Ok (project_docs_dir self).

(** A seeded file is in place, or there is no template to seed it from. *)
Definition seed_done (template_name output_name : string)
  (output_dir : option Path) (fs : FS) : Prop :=
  fs_exists (cwd env) fs (output_file_of output_name output_dir) = true
  ∨ fs_exists (cwd env) fs (template_file_of template_name) = false.

(** The state [setup] brings the filesystem to. *)
Definition settled (fs : FS) : Prop :=
  dirs_ready fs
  ∧ link_ready fs
  ∧ seed_done "ignore.template" ".neuroloraignore" (Some (project_root self)) fs
  ∧ seed_done "todo.template.md" "TODO.md" None fs
  ∧ seed_done "done.template.md" "DONE.md" None fs.

(** A fresh project: the directory that is to hold the link exists and
    holds no link of that name, and no symbolic link anywhere bears the name
    of one of the manager's files. *)
Definition fresh (fs : FS) : Prop :=
  no_managed_links fs ∧ not_a_link (cwd env) fs (neurolora_link self).

End Settled.

(** [fs'] is [fs], possibly with one new regular file called [on]. *)
Definition seeded (on : string) (fs fs' : FS) : Prop :=
  fs' = fs ∨ ∃ l0 c, fs !! (l0 ++ [on]) = None
                     ∧ fs' = <[l0 ++ [on] := File c]> fs.

(** ** Further specifications *)

(** [fs'] keeps every directory of [fs], and every other entry of [fs] that
    is called neither [.initialized] nor [.neurolora]. *)
Definition kept (fs fs' : FS) : Prop :=
  ∀ l0 n nd,
    nd = Dir ∨ (n ≠ ".initialized" ∧ n ≠ ".neurolora") →
    fs !! (l0 ++ [n]) = Some nd → fs' !! (l0 ++ [n]) = Some nd.

(** A step that keeps entries as [kept] says, provided no symbolic link is
    called [.initialized], and leaves no such link behind. *)
Definition safe_step (fs fs' : FS) : Prop :=
  no_link_named ".initialized" fs →
  kept fs fs' ∧ no_link_named ".initialized" fs'.

(** Every run of [m], whether it returns or raises, takes a world to one
    related to it by [R]. *)
Definition always {A} (R : World → World → Prop) (m : M A) : Prop :=
  ∀ w r w', m w = (r, w') → R w w'.

(** The filesystem takes a safe step. *)
Definition framed (w w' : World) : Prop := safe_step (fsys w) (fsys w').

(** No sleep is added to the trace. *)
Definition no_sleep (w w' : World) : Prop :=
  sleeps (trace w') = sleeps (trace w).

(** A backend whose existence checks number [a] to [b - 1] answer no and
    whose other checks are faithful. *)
Definition hidden_between (a b : nat) : nat → bool → bool :=
  λ n v, if (a <=? n)%nat && (n <? b)%nat then false else v.

(** [l] is the location of a directory reached through directories only:
    every prefix of [l] but the root is a directory of [fs]. *)
Definition directory_at (fs : FS) (l : loc) : Prop :=
  ∀ k, 0 < k ≤ length l → fs !! take k l = Some Dir.

(** A path that is its own canonical form in [fs]: anchored, made of entry
    names only, and crossing no symbolic link. *)
Definition canonical (fs : FS) (p : Path) : Prop :=
  absolute p = true
  ∧ Forall (λ c, plain c = true) (parts p)
  ∧ ∀ k t, 0 < k ≤ length (parts p) →
           fs !! take k (parts p) ≠ Some (Link t).

(** Run on the filesystem [fs], [m] returns [a] and leaves the filesystem
    [fs']. *)
Definition leads {A} (m : M A) (fs : FS) (a : A) (fs' : FS) : Prop :=
  ∀ w, fsys w = fs → ∃ w', m w = (Ok a, w') ∧ fsys w' = fs'.

(** ** More of the concrete machine *)


(** The machine after [_create_directories]. *)
Definition w_dirs_ready : World :=
  snd (_create_directories env_tmp immediate sm_app (world0 fs_fresh)).

(** The locations of the project root and of the documents directory. *)
Definition loc_app : loc := ["tmp"; "app"].
Definition loc_docs : loc := ["tmp"; "home"; ".mcp-docs"; "app"].

(** ** A project ready for [setup] *)




Definition no_link_at (fs : FS) (l : loc) : Prop :=
  ∀ t, fs !! l ≠ Some (Link t).







(** The machine after the manager is constructed for [/tmp/app]. *)
Definition w_constructed : World :=
  snd (__init__ env_tmp (Some (parse "/tmp/app")) None (world0 fs_fresh)).


(** The constructed machine with a regular file where the documents
    directory should be. *)
Definition fs_docs_is_file : FS :=
  <[ loc_docs := File (Text "notes") ]> (fsys w_constructed).

(** * Properties *)

(** ** The monad *)

Lemma bind_Ok_inv {A B} (m : M A) (f : A → M B) (w w' : World) (b : B) :
  bind m f w = (Ok b, w') →
  ∃ a w1, m w = (Ok a, w1) ∧ f a w1 = (Ok b, w').
Proof.
  unfold bind. destruct (m w) as [[a|e] w1]; [eauto|discriminate].
Qed.

(** A handler that logs and raises again never turns a failure into a
    success. *)
Lemma try_except_Ok_inv {A} (m : M A) (h : exc → M A) (w w' : World) (a : A) :
  (∀ e w0 a0 w1, h e w0 ≠ (Ok a0, w1)) →
  try_except m h w = (Ok a, w') → m w = (Ok a, w').
Proof.
  intros Hh. unfold try_except. destruct (m w) as [[a0|e] w1]; [auto|].
  intros H. now apply Hh in H.
Qed.

Lemma log_then_raise_fails {A} (lv : level) (msg : string) (e : exc)
  (w0 : World) (a0 : A) (w1 : World) :
  (log lv msg;; raise e) w0 ≠ (Ok a0, w1).
Proof. discriminate. Qed.

(** Unfolds the next step of a run recorded in hypothesis [E]. *)
Tactic Notation "bind_inv" hyp(E) "as" ident(a) ident(w1) ident(E1) :=
  apply bind_Ok_inv in E as (a & w1 & E1 & E).

Tactic Notation "bind_inv" hyp(E) :=
  let a := fresh "a" in
  let w1 := fresh "w" in
  let E1 := fresh "E" in
  apply bind_Ok_inv in E as (a & w1 & E1 & E).

(** ** Path resolution *)

Lemma walk_nil (strict follow : bool) (fuel : nat) (fs : FS) (cur : loc) :
  walk strict follow fuel fs cur [] = Ok cur.
Proof. destruct fuel; reflexivity. Qed.

Lemma walk_cons (strict follow : bool) (fuel : nat) (fs : FS) (cur : loc)
  (c : string) (rest : list string) :
  walk strict follow fuel fs cur (c :: rest) =
  if skipped c then walk strict follow fuel fs cur rest
  else if bool_decide (c = dotdot)
  then walk strict follow fuel fs (removelast cur) rest
  else
    match fs !! (cur ++ [c]) with
    | Some (Link t) =>
        if bool_decide (rest = []) && negb follow then Ok (cur ++ [c])
        else
          match fuel with
          | 0 => Err ELOOP
          | S fuel' =>
              walk strict follow fuel' fs
                (if absolute t then [] else cur) (parts t ++ rest)
          end
    | Some Dir => walk strict follow fuel fs (cur ++ [c]) rest
    | Some (File _) =>
        if strict && negb (bool_decide (rest = [])) then Err ENOTDIR
        else walk strict follow fuel fs (cur ++ [c]) rest
    | None =>
        if strict && negb (bool_decide (rest = [])) then Err ENOENT
        else walk strict follow fuel fs (cur ++ [c]) rest
    end.
Proof. destruct fuel; reflexivity. Qed.

#[global] Arguments walk : simpl never.

(** A strict resolution looks at a missing entry only as its very last step:
    adding an entry where none was leaves the outcome of every successful
    resolution as it is, unless the resolution ends there and would follow
    the new entry. *)
Lemma walk_insert (follow : bool) (fs : FS) (l : loc) (n : node) :
  fs !! l = None →
  ∀ (fuel : nat) (cur : loc) (comps : list string) (l' : loc),
    walk true follow fuel fs cur comps = Ok l' →
    l' ≠ l ∨ follow = false ∨ (∀ t, n ≠ Link t) →
    walk true follow fuel (<[l := n]> fs) cur comps = Ok l'.
Proof.
  intros Hl fuel. induction fuel as [fuel IHfuel] using lt_wf_ind.
  intros cur comps. revert cur.
  induction comps as [|c rest IHrest]; intros cur l'.
  { rewrite !walk_nil. auto. }
  rewrite !walk_cons.
  destruct (skipped c); [apply IHrest|].
  destruct (bool_decide (c = dotdot)); [apply IHrest|].
  destruct (decide (cur ++ [c] = l)) as [->|Hne].
  - rewrite Hl, lookup_insert_eq. cbn [andb].
    destruct (bool_decide (rest = [])) eqn:Hfinal; cbn [negb]; [|discriminate].
    apply bool_decide_eq_true in Hfinal as ->. rewrite walk_nil.
    intros [= <-] Hn.
    destruct n as [| |t]; rewrite ?walk_nil; try reflexivity.
    destruct Hn as [Hn|[->|Hn]]; [congruence|reflexivity|].
    now destruct (Hn t).
  - rewrite lookup_insert_ne by congruence.
    destruct (fs !! (cur ++ [c])) as [[| |t]|]; try apply IHrest.
    + destruct (_ && _); [discriminate|apply IHrest].
    + destruct (_ && _); [auto|].
      destruct fuel as [|fuel']; [discriminate|]. apply IHfuel. lia.
    + destruct (_ && _); [discriminate|apply IHrest].
Qed.

(** When the entry a path names is not a link, following the last component
    or not makes no difference. *)
Lemma walk_follow_nonlink (strict : bool) (fs : FS) :
  ∀ (fuel : nat) (cur : loc) (comps : list string) (l : loc),
    walk strict false fuel fs cur comps = Ok l →
    (∀ t, fs !! l ≠ Some (Link t)) →
    walk strict true fuel fs cur comps = Ok l.
Proof.
  intros fuel. induction fuel as [fuel IHfuel] using lt_wf_ind.
  intros cur comps. revert cur.
  induction comps as [|c rest IHrest]; intros cur l.
  { rewrite !walk_nil. auto. }
  rewrite !walk_cons.
  destruct (skipped c); [apply IHrest|].
  destruct (bool_decide (c = dotdot)); [apply IHrest|].
  destruct (fs !! (cur ++ [c])) as [[| |t]|] eqn:E; try apply IHrest.
  - destruct (_ && _); [discriminate|apply IHrest].
  - destruct (bool_decide (rest = [])); cbn [andb negb].
    + intros [= <-] H. now destruct (H t).
    + destruct fuel as [|fuel']; [discriminate|]. apply IHfuel. lia.
  - destruct (_ && _); [discriminate|apply IHrest].
Qed.

(** The same holds when the entry replaces a regular file. *)
Lemma walk_update_leaf (follow : bool) (fs : FS) (q : loc) (n : node) :
  leaf fs q →
  ∀ (fuel : nat) (cur : loc) (comps : list string) (l' : loc),
    walk true follow fuel fs cur comps = Ok l' →
    l' ≠ q ∨ follow = false ∨ (∀ t, n ≠ Link t) →
    walk true follow fuel (<[q := n]> fs) cur comps = Ok l'.
Proof.
  intros Hq fuel. induction fuel as [fuel IHfuel] using lt_wf_ind.
  intros cur comps. revert cur.
  induction comps as [|c rest IHrest]; intros cur l'.
  { rewrite !walk_nil. auto. }
  rewrite !walk_cons.
  destruct (skipped c); [apply IHrest|].
  destruct (bool_decide (c = dotdot)); [apply IHrest|].
  destruct (decide (cur ++ [c] = q)) as [->|Hne].
  - rewrite lookup_insert_eq.
    destruct Hq as [Hq|[c0 Hq]]; rewrite Hq; cbn [andb];
      (destruct (bool_decide (rest = [])) eqn:Hfinal; cbn [negb];
       [|discriminate]);
      apply bool_decide_eq_true in Hfinal as ->; rewrite walk_nil;
      intros [= <-] Hn;
      (destruct n as [| |t]; rewrite ?walk_nil; try reflexivity);
      (destruct Hn as [Hn|[->|Hn]]; [congruence|reflexivity|]);
      now destruct (Hn t).
  - rewrite lookup_insert_ne by congruence.
    destruct (fs !! (cur ++ [c])) as [[| |t]|]; try apply IHrest.
    + destruct (_ && _); [discriminate|apply IHrest].
    + destruct (_ && _); [auto|].
      destruct fuel as [|fuel']; [discriminate|]. apply IHfuel. lia.
    + destruct (_ && _); [discriminate|apply IHrest].
Qed.

(** Removing a regular file leaves every successful resolution as it is. *)
Lemma walk_delete_file (follow : bool) (fs : FS) (q : loc) (c0 : content) :
  fs !! q = Some (File c0) →
  ∀ (fuel : nat) (cur : loc) (comps : list string) (l' : loc),
    walk true follow fuel fs cur comps = Ok l' →
    walk true follow fuel (delete q fs) cur comps = Ok l'.
Proof.
  intros Hq fuel. induction fuel as [fuel IHfuel] using lt_wf_ind.
  intros cur comps. revert cur.
  induction comps as [|c rest IHrest]; intros cur l'.
  { rewrite !walk_nil. auto. }
  rewrite !walk_cons.
  destruct (skipped c); [apply IHrest|].
  destruct (bool_decide (c = dotdot)); [apply IHrest|].
  destruct (decide (cur ++ [c] = q)) as [->|Hne].
  - rewrite Hq, lookup_delete_eq. cbn [andb].
    destruct (bool_decide (rest = [])) eqn:Hfinal; cbn [negb]; [|discriminate].
    apply bool_decide_eq_true in Hfinal as ->. now rewrite !walk_nil.
  - rewrite lookup_delete_ne by congruence.
    destruct (fs !! (cur ++ [c])) as [[| |t]|]; try apply IHrest.
    + destruct (_ && _); [discriminate|apply IHrest].
    + destruct (_ && _); [auto|].
      destruct fuel as [|fuel']; [discriminate|]. apply IHfuel. lia.
    + destruct (_ && _); [discriminate|apply IHrest].
Qed.

(** [realpath] treats a missing entry and a regular file alike. *)
Lemma walk_nonstrict_file (follow : bool) (fs : FS) (q : loc) (c0 : content) :
  leaf fs q →
  ∀ (fuel : nat) (cur : loc) (comps : list string),
    walk false follow fuel (<[q := File c0]> fs) cur comps
    = walk false follow fuel fs cur comps.
Proof.
  intros Hq fuel. induction fuel as [fuel IHfuel] using lt_wf_ind.
  intros cur comps. revert cur.
  induction comps as [|c rest IHrest]; intros cur.
  { now rewrite !walk_nil. }
  rewrite !walk_cons.
  destruct (skipped c); [apply IHrest|].
  destruct (bool_decide (c = dotdot)); [apply IHrest|].
  destruct (decide (cur ++ [c] = q)) as [->|Hne].
  - rewrite lookup_insert_eq. cbn [andb].
    destruct Hq as [->|[c1 ->]]; cbn [andb]; apply IHrest.
  - rewrite lookup_insert_ne by congruence.
    destruct (fs !! (cur ++ [c])) as [[| |t]|]; try apply IHrest.
    destruct (_ && _); [reflexivity|].
    destruct fuel as [|fuel']; [reflexivity|]. apply IHfuel. lia.
Qed.

(** A new regular file does not make a failing resolution succeed. *)
Lemma walk_insert_file_err (follow : bool) (fs : FS) (q : loc) (c0 : content) :
  fs !! q = None →
  ∀ (fuel : nat) (cur : loc) (comps : list string) (e : errno),
    walk true follow fuel fs cur comps = Err e →
    ∃ e', walk true follow fuel (<[q := File c0]> fs) cur comps = Err e'.
Proof.
  intros Hq fuel. induction fuel as [fuel IHfuel] using lt_wf_ind.
  intros cur comps. revert cur.
  induction comps as [|c rest IHrest]; intros cur e.
  { rewrite !walk_nil. discriminate. }
  rewrite !walk_cons.
  destruct (skipped c); [apply IHrest|].
  destruct (bool_decide (c = dotdot)); [apply IHrest|].
  destruct (decide (cur ++ [c] = q)) as [->|Hne].
  - rewrite Hq, lookup_insert_eq. cbn [andb].
    destruct (bool_decide (rest = [])) eqn:Hfinal; cbn [negb]; [|eauto].
    apply bool_decide_eq_true in Hfinal as ->. rewrite !walk_nil. discriminate.
  - rewrite lookup_insert_ne by congruence.
    destruct (fs !! (cur ++ [c])) as [[| |t]|]; try apply IHrest.
    + destruct (_ && _); [eauto|apply IHrest].
    + destruct (_ && _); [discriminate|].
      destruct fuel as [|fuel']; [eauto|]. apply IHfuel. lia.
    + destruct (_ && _); [eauto|apply IHrest].
Qed.

(** Where no link is called [n], a path whose last component is [n] names
    a location whose last component is [n]. *)
Lemma walk_last_name (follow : bool) (fs : FS) (n : string) :
  plain n = true →
  no_link_named n fs →
  ∀ (fuel : nat) (cur : loc) (pre : list string) (l : loc),
    walk true follow fuel fs cur (pre ++ [n]) = Ok l →
    ∃ l0, l = l0 ++ [n].
Proof.
  intros Hn Hfs fuel. induction fuel as [fuel IHfuel] using lt_wf_ind.
  assert (Hlast : ∀ cur l,
    walk true follow fuel fs cur [n] = Ok l → ∃ l0, l = l0 ++ [n]).
  { intros cur l. rewrite walk_cons.
    unfold plain in Hn. apply andb_true_iff in Hn as [Hs Hd].
    apply negb_true_iff in Hs, Hd. rewrite Hs, Hd.
    rewrite bool_decide_eq_true_2 by reflexivity. cbn [negb andb].
    destruct (fs !! (cur ++ [n])) as [[| |t]|] eqn:E; rewrite ?walk_nil;
      try (intros [= <-]; eauto; fail).
    now destruct (Hfs cur t). }
  intros cur pre. revert cur.
  induction pre as [|c rest IHrest]; intros cur l; [apply Hlast|].
  cbn [app]. rewrite walk_cons.
  destruct (skipped c); [apply IHrest|].
  destruct (bool_decide (c = dotdot)); [apply IHrest|].
  assert (Hnf : bool_decide (rest ++ [n] = []) = false).
  { apply bool_decide_eq_false. now destruct rest. }
  rewrite Hnf. cbn [negb andb].
  destruct (fs !! (cur ++ [c])) as [[| |t]|]; try apply IHrest;
    try discriminate.
  destruct fuel as [|fuel']; [discriminate|].
  rewrite app_assoc. apply IHfuel. lia.
Qed.

(** The last component of a path that is not followed names the location. *)
Lemma walk_last_name_nofollow (fs : FS) (n : string) :
  plain n = true →
  ∀ (fuel : nat) (cur : loc) (pre : list string) (l : loc),
    walk true false fuel fs cur (pre ++ [n]) = Ok l →
    ∃ l0, l = l0 ++ [n].
Proof.
  intros Hn fuel. induction fuel as [fuel IHfuel] using lt_wf_ind.
  assert (Hlast : ∀ cur l,
    walk true false fuel fs cur [n] = Ok l → ∃ l0, l = l0 ++ [n]).
  { intros cur l. rewrite walk_cons.
    unfold plain in Hn. apply andb_true_iff in Hn as [Hs Hd].
    apply negb_true_iff in Hs, Hd. rewrite Hs, Hd.
    rewrite bool_decide_eq_true_2 by reflexivity. cbn [negb andb].
    destruct (fs !! (cur ++ [n])) as [[| |t]|] eqn:E; rewrite ?walk_nil;
      intros [= <-]; eauto. }
  intros cur pre. revert cur.
  induction pre as [|c rest IHrest]; intros cur l; [apply Hlast|].
  cbn [app]. rewrite walk_cons.
  destruct (skipped c); [apply IHrest|].
  destruct (bool_decide (c = dotdot)); [apply IHrest|].
  assert (Hnf : bool_decide (rest ++ [n] = []) = false).
  { apply bool_decide_eq_false. now destruct rest. }
  rewrite Hnf. cbn [negb andb].
  destruct (fs !! (cur ++ [c])) as [[| |t]|]; try apply IHrest;
    try discriminate.
  destruct fuel as [|fuel']; [discriminate|].
  rewrite app_assoc. apply IHfuel. lia.
Qed.

(** New directories where nothing was leave every successful resolution as
    it is. *)
Lemma walk_grows (follow : bool) (fs fs' : FS) :
  grows fs fs' →
  ∀ (fuel : nat) (cur : loc) (comps : list string) (l : loc),
    walk true follow fuel fs cur comps = Ok l →
    walk true follow fuel fs' cur comps = Ok l.
Proof.
  intros G fuel. induction fuel as [fuel IHfuel] using lt_wf_ind.
  intros cur comps. revert cur.
  induction comps as [|c rest IHrest]; intros cur l.
  { rewrite !walk_nil. auto. }
  rewrite !walk_cons.
  destruct (skipped c); [apply IHrest|].
  destruct (bool_decide (c = dotdot)); [apply IHrest|].
  destruct (G (cur ++ [c])) as [->|[-> ->]].
  - destruct (fs !! (cur ++ [c])) as [[| |t]|]; try apply IHrest.
    + destruct (_ && _); [discriminate|apply IHrest].
    + destruct (_ && _); [auto|].
      destruct fuel as [|fuel']; [discriminate|]. apply IHfuel. lia.
    + destruct (_ && _); [discriminate|apply IHrest].
  - cbn [andb]. destruct (negb _); [discriminate|apply IHrest].
Qed.

(** If a path leads somewhere when links are followed, its last component
    exists. *)
Lemma walk_nofollow_exists (fs : FS) :
  ∀ (fuel : nat) (cur : loc) (comps : list string) (l : loc),
    walk true true fuel fs cur comps = Ok l →
    is_Some (node_at fs l) →
    ∃ l', walk true false fuel fs cur comps = Ok l' ∧ is_Some (node_at fs l').
Proof.
  intros fuel. induction fuel as [fuel IHfuel] using lt_wf_ind.
  intros cur comps. revert cur.
  induction comps as [|c rest IHrest]; intros cur l.
  { rewrite !walk_nil. eauto. }
  rewrite !walk_cons.
  destruct (skipped c); [apply IHrest|].
  destruct (bool_decide (c = dotdot)); [apply IHrest|].
  destruct (fs !! (cur ++ [c])) as [[| |t]|] eqn:E; try apply IHrest.
  - destruct (_ && _); [discriminate|apply IHrest].
  - destruct (bool_decide (rest = [])); cbn [andb negb].
    + intros _ _. exists (cur ++ [c]). split; [reflexivity|].
      unfold node_at. destruct (cur ++ [c]); [eauto|]. rewrite E. eauto.
    + destruct fuel as [|fuel']; [discriminate|]. apply IHfuel. lia.
  - destruct (_ && _); [discriminate|apply IHrest].
Qed.

Lemma node_at_None (fs : FS) (l : loc) :
  node_at fs l = None → l ≠ [] ∧ fs !! l = None.
Proof. destruct l; [discriminate|]. simpl. split; [discriminate|assumption]. Qed.

Lemma node_at_insert_eq (fs : FS) (l : loc) (n : node) :
  l ≠ [] → node_at (<[l := n]> fs) l = Some n.
Proof. destruct l; [congruence|]. intros _. simpl. apply lookup_insert_eq. Qed.

(** ** Making directories *)

Section Mkdir.

Context (cwd : Path).

Lemma os_mkdir_ok (fs fs' : FS) (p : Path) :
  os_mkdir cwd fs p = Ok fs' →
  ∃ l, locate false cwd fs p = Ok l ∧ l ≠ [] ∧ fs !! l = None
       ∧ fs' = <[l := Dir]> fs.
Proof.
  unfold os_mkdir. destruct (locate false cwd fs p) as [l|e]; [|discriminate].
  destruct (node_at fs l) eqn:E; [discriminate|].
  apply node_at_None in E as [? ?]. intros [= <-]. eauto.
Qed.

Lemma os_symlink_ok (fs fs' : FS) (t p : Path) :
  os_symlink cwd fs t p = Ok fs' →
  ∃ l, locate false cwd fs p = Ok l ∧ l ≠ [] ∧ fs !! l = None
       ∧ fs' = <[l := Link t]> fs.
Proof.
  unfold os_symlink. destruct (locate false cwd fs p) as [l|e]; [|discriminate].
  destruct (node_at fs l) eqn:E; [discriminate|].
  apply node_at_None in E as [? ?]. intros [= <-]. eauto.
Qed.

(** A directory just made is a directory. *)
Lemma os_mkdir_is_dir (fs fs' : FS) (p : Path) :
  os_mkdir cwd fs p = Ok fs' → fs_is_dir cwd fs' p = true.
Proof.
  intros (l & Hloc & Hl & Hnone & ->)%os_mkdir_ok.
  unfold fs_is_dir, stat, locate in *.
  erewrite walk_follow_nonlink.
  - rewrite node_at_insert_eq by assumption. reflexivity.
  - apply walk_insert; eauto.
  - intros t. rewrite lookup_insert_eq. discriminate.
Qed.

(** A path that is a directory cannot be made again. *)
Lemma os_mkdir_existing (fs : FS) (p : Path) :
  fs_is_dir cwd fs p = true → os_mkdir cwd fs p = Err EEXIST.
Proof.
  unfold fs_is_dir, stat, os_mkdir, locate.
  destruct (walk true true _ _ _ _) as [l|] eqn:E; [|discriminate].
  destruct (node_at fs l) as [n|] eqn:En; [|discriminate]. intros _.
  destruct (walk_nofollow_exists _ _ _ _ _ E) as (l' & -> & [n' ->]); eauto.
Qed.

End Mkdir.



(** ** Strings and names *)

Lemma append_inj_r (a s1 s2 : string) : a +:+ s1 = a +:+ s2 → s1 = s2.
Proof.
  induction a as [|c a IH]; simpl; intros H; [exact H|].
  injection H as H. auto.
Qed.

Lemma length_append (a b : string) :
  String.length (a +:+ b) = String.length a + String.length b.
Proof. induction a as [|c a IH]; simpl; [reflexivity|]. now rewrite IH. Qed.

Lemma append_dash_ne (a s : string) : a ≠ a +:+ "-" +:+ s.
Proof.
  intros H. apply (f_equal String.length) in H.
  rewrite !length_append in H. simpl in H. lia.
Qed.

Lemma project_name_some (h root : Path) (s : string) :
  s ≠ EmptyString →
  project_name (layout h root (Some s)) = name root +:+ "-" +:+ s.
Proof. destruct s; [congruence | reflexivity]. Qed.

(** ** The namespace name *)

(** C10: an empty sub-identity is treated as an absent one: the namespace
    name is the base name of the root without any dash, and the whole layout
    (documents directory included) is the one computed without a
    sub-identity; so for root [app]. *)
Theorem C10_empty_subidentity_is_absent (h root : Path) :
  project_name (layout h root (Some EmptyString)) = name root
  ∧ layout h root (Some EmptyString) = layout h root None
  ∧ project_name (layout h (parse "app") (Some EmptyString)) = "app"
  ∧ project_docs_dir (layout h (parse "app") (Some EmptyString))
    = project_docs_dir (layout h (parse "app") None).
Proof. repeat split. Qed.

(** C6 fails as stated: with the empty sub-identity the name is the base
    name alone, not the base name followed by a dash. *)
Lemma C6_empty_subidentity_has_no_dash :
  project_name (layout (parse "/home/u") (parse "app") (Some EmptyString))
  ≠ name (parse "app") +:+ "-" +:+ EmptyString.
Proof. vm_compute. discriminate. Qed.

(** C6, amended: the namespace name is the base name of the root when the
    sub-identity is absent and the base name, a dash and the sub-identity
    when it is a non-empty string; distinct non-empty sub-identities give
    distinct names, and none of them gives the name of the absent case; the
    name depends on the root and the sub-identity alone, not on the home
    directory; for root [app], the names without sub-identity and with
    [backend] differ, the latter is [app-backend], and the two documents
    directories differ. *)
Theorem C6_namespace_derivation (h root : Path) (s1 s2 : string)
  (Hs1 : s1 ≠ EmptyString) (Hs2 : s2 ≠ EmptyString) :
  project_name (layout h root None) = name root
  ∧ project_name (layout h root (Some s1)) = name root +:+ "-" +:+ s1
  ∧ (project_name (layout h root (Some s1))
     = project_name (layout h root (Some s2)) → s1 = s2)
  ∧ project_name (layout h root (Some s1)) ≠ project_name (layout h root None)
  ∧ (∀ h' sub, project_name (layout h' root sub)
               = project_name (layout h root sub))
  ∧ project_name (layout h (parse "app") None)
    ≠ project_name (layout h (parse "app") (Some "backend"))
  ∧ project_name (layout h (parse "app") (Some "backend")) = "app-backend"
  ∧ project_docs_dir (layout h (parse "app") None)
    ≠ project_docs_dir (layout h (parse "app") (Some "backend")).
Proof.
  split; [reflexivity|]. split; [now apply project_name_some|].
  split.
  { rewrite !project_name_some by assumption. intros H.
    apply append_inj_r in H. now apply append_inj_r in H. }
  split.
  { rewrite project_name_some by assumption. intros H.
    symmetry in H. revert H. apply append_dash_ne. }
  split; [reflexivity|].
  split; [discriminate|]. split; [reflexivity|].
  unfold layout, joinpath; simpl.
  intros H. apply (f_equal parts) in H. vm_compute in H.
  apply app_inv_head in H. discriminate.
Qed.

(** C6 at root [/srv/app] with sub-identities [backend] and [frontend]. *)
Lemma C6_namespace_derivation_witness :
  "backend" ≠ EmptyString ∧ "frontend" ≠ EmptyString
  ∧ project_name (layout (parse "/home/u") (parse "/srv/app") (Some "backend"))
    = name (parse "/srv/app") +:+ "-" +:+ "backend".
Proof.
  split; [discriminate|]. split; [discriminate|].
  apply (C6_namespace_derivation (parse "/home/u") (parse "/srv/app")
           "backend" "frontend"); discriminate.
Defined.

(** ** The directory initializer *)

Section Directories.

Context (env : Env).

Lemma path_mkdir_world (p : Path) (w : World) r w' :
  path_mkdir env p w = (r, w') → nobs w' = nobs w ∧ trace w' = trace w.
Proof.
  unfold path_mkdir, bind, get_fs, put_fs, ret, raise.
  destruct (os_mkdir _ _ _) as [fs'|[]]; try destruct (fs_is_dir _ _ _);
    intros [= <- <-]; auto.
Qed.

(** Making directories neither observes existence nor leaves a trace. *)
Lemma mkdir_parents_world (n : nat) : ∀ (p : Path) (w : World) r w',
  mkdir_parents env n p w = (r, w') → nobs w' = nobs w ∧ trace w' = trace w.
Proof.
  induction n as [|n IH]; intros p w r w'; simpl;
    unfold bind, get_fs, put_fs, ret, raise;
    destruct (os_mkdir _ _ _) as [fs'|[]]; try destruct (fs_is_dir _ _ _);
    try (intros [= <- <-]; auto; fail).
  destruct (bool_decide _); [intros [= <- <-]; auto|].
  destruct (mkdir_parents env n (parent p) w) as [[[]|e] w1] eqn:E1.
  - apply IH in E1 as [E1n E1t]. intros H.
    apply path_mkdir_world in H as [-> ->]. auto.
  - apply IH in E1. intros [= <- <-]. exact E1.
Qed.

(** A poll whose [n] next observations are all negative sleeps [n] times
    and runs its [else] clause. *)
Lemma for_retries_exhausted (observe : nat → bool → bool) (p : Path)
  (orelse : M unit) (n : nat) : ∀ w : World,
  (∀ k b, nobs w ≤ k < nobs w + n → observe k b = false) →
  for_retries n (path_exists env observe p) orelse w
  = orelse {| fsys := fsys w; nobs := nobs w + n;
              trace := trace w ++ repeat (Sleep 100) n |}.
Proof.
  induction n as [|n IH]; intros w H; simpl.
  - rewrite Nat.add_0_r, app_nil_r. now destruct w.
  - unfold bind at 1, path_exists at 1. rewrite H by lia.
    unfold bind at 1, emit at 1. rewrite IH; simpl.
    + f_equal. f_equal; [lia|]. now rewrite <- app_assoc.
    + intros k b Hk. apply H. lia.
Qed.

Lemma sleeps_app (a b : list event) : sleeps (a ++ b) = sleeps a + sleeps b.
Proof.
  induction a as [|[] a IH]; simpl; rewrite ?IH; auto.
Qed.

Lemma sleeps_repeat (n : nat) : sleeps (repeat (Sleep 100) n) = n.
Proof. induction n; simpl; auto. Qed.

Lemma slept_app (a b : list event) : slept (a ++ b) = slept a + slept b.
Proof.
  induction a as [|[] a IH]; simpl; rewrite ?IH; auto; lia.
Qed.

Lemma slept_repeat (n : nat) : slept (repeat (Sleep 100) n) = 100 * n.
Proof. induction n; simpl; lia. Qed.

Context (self : StorageManager).

(** C3 fails as stated: on a filesystem ready for setup, with an existence
    check that always answers no, [_create_directories] raises after a
    single observation and without having slept once, not after ten polling
    attempts. *)
Lemma C3_never_visible_raises_before_polling :
  let r := _create_directories env_tmp never_visible sm_app (world0 fs_fresh) in
  fst r = Err (RuntimeError
                 "Failed to create directory: /tmp/home/.mcp-docs/app")
  ∧ nobs (snd r) = 1
  ∧ sleeps (trace (snd r)) = 0
  ∧ sleeps (trace (snd r)) ≠ 10.
Proof. vm_compute. repeat split. discriminate. Qed.

(** C3, amended: once the directory and the marker are written, the first
    negative answer of the existence check makes [_create_directories] raise
    at once, after that single observation and with no sleep; so it does
    when the check answers no unconditionally.  The poll is exhausted only
    when the immediate check answers yes and the ten that follow answer no:
    then the error is raised after exactly eleven observations and ten
    sleeps of 100 ms. *)
Theorem C3_retry_budget (observe : nat → bool → bool) (w w1 : World) (fs2 : FS)
  (Hmkdir : path_mkdir_parents env (project_docs_dir self) w = (Ok (), w1))
  (Hmarker : os_write (cwd env) (fsys w1)
               (project_docs_dir self // ".initialized") (Text "initialized")
             = Ok fs2) :
  let seen := fs_exists (cwd env) fs2 (project_docs_dir self) in
  let r := _create_directories env observe self w in
  (observe (nobs w) seen = false →
     fst r = Err (RuntimeError ("Failed to create directory: "
                                +:+ str_path (project_docs_dir self)))
     ∧ nobs (snd r) = nobs w + 1
     ∧ sleeps (trace (snd r)) = sleeps (trace w))
  ∧ (observe (nobs w) seen = true →
     (∀ k b, nobs w < k ≤ nobs w + 10 → observe k b = false) →
     fst r = Err (RuntimeError ("Directory not visible after 10 retries: "
                                +:+ str_path (project_docs_dir self)))
     ∧ nobs (snd r) = nobs w + 11
     ∧ sleeps (trace (snd r)) = sleeps (trace w) + 10
     ∧ slept (trace (snd r)) = slept (trace w) + 1000).
Proof.
  intros seen r. subst r.
  destruct (mkdir_parents_world _ _ _ _ _ Hmkdir) as [Hn Ht].
  destruct (_create_directories env observe self w) as [r w'] eqn:E.
  unfold _create_directories, try_except in E.
  unfold bind at 1 in E. rewrite Hmkdir in E.
  unfold bind at 1, log at 1, emit at 1 in E.
  unfold bind at 1, write_text at 1, bind at 1, get_fs at 1 in E.
  cbn [fsys] in E. rewrite Hmarker in E.
  unfold lift_os, ret at 1, put_fs at 1 in E.
  unfold bind at 1, emit at 1 in E. unfold bind at 1, emit at 1 in E.
  unfold bind at 1, bind at 1, path_exists at 1 in E.
  cbn [fsys nobs trace] in E. fold seen in E. rewrite Hn, Ht in E.
  cbn [fst snd]. split.
  - intros Hobs. rewrite Hobs in E. cbn in E. injection E as <- <-.
    cbn. rewrite !sleeps_app. cbn. split; [reflexivity|]. lia.
  - intros Hobs Hrest. rewrite Hobs in E. cbn [negb ret] in E.
    unfold bind at 1, ret at 1 in E. unfold bind at 1 in E.
    rewrite for_retries_exhausted in E.
    2:{ cbn [nobs]. intros k b Hk. apply Hrest. lia. }
    cbn in E. injection E as <- <-.
    cbn. rewrite !sleeps_app, !slept_app. cbn. repeat split; lia.
Qed.

End Directories.

(** ** The identity resolver *)

Lemma grows_refl (fs : FS) : grows fs fs.
Proof. intros l. now left. Qed.

Lemma grows_trans (fs1 fs2 fs3 : FS) :
  grows fs1 fs2 → grows fs2 fs3 → grows fs1 fs3.
Proof.
  intros H12 H23 l. destruct (H12 l) as [E|[E1 E2]], (H23 l) as [F|[F1 F2]].
  - left. congruence.
  - right. split; congruence.
  - right. split; congruence.
  - congruence.
Qed.

Lemma grows_insert_dir (fs : FS) (l : loc) :
  fs !! l = None → grows fs (<[l := Dir]> fs).
Proof.
  intros H l'. destruct (decide (l = l')) as [<-|Hne].
  - right. now rewrite lookup_insert_eq.
  - left. now rewrite lookup_insert_ne.
Qed.

Section Init.

Context (env : Env).

Lemma path_mkdir_grows (p : Path) (w : World) r w' :
  path_mkdir env p w = (r, w') →
  grows (fsys w) (fsys w')
  ∧ (r = Ok () → fs_is_dir (cwd env) (fsys w') p = true).
Proof.
  unfold path_mkdir, bind, get_fs, put_fs, ret, raise.
  destruct (os_mkdir _ _ _) as [fs'|e] eqn:E.
  - intros [= <- <-]. cbn. split.
    + apply os_mkdir_ok in E as (l & _ & _ & Hnone & ->).
      now apply grows_insert_dir.
    + intros _. eapply os_mkdir_is_dir, E.
  - destruct (fs_is_dir _ _ _) eqn:D, e; intros [= <- <-];
      (split; [apply grows_refl | auto; discriminate]).
Qed.

(** [mkdir(parents=True, exist_ok=True)] adds directories only, and leaves
    a directory behind when it succeeds. *)
Lemma mkdir_parents_grows (n : nat) : ∀ (p : Path) (w : World) r w',
  mkdir_parents env n p w = (r, w') →
  grows (fsys w) (fsys w')
  ∧ (r = Ok () → fs_is_dir (cwd env) (fsys w') p = true).
Proof.
  induction n as [|n IH]; intros p w r w'; simpl;
    unfold bind at 1, get_fs at 1.
  - destruct (os_mkdir _ _ _) as [fs'|e] eqn:E.
    + unfold put_fs. intros [= <- <-]. cbn. split.
      * apply os_mkdir_ok in E as (l & _ & _ & Hnone & ->).
        now apply grows_insert_dir.
      * intros _. eapply os_mkdir_is_dir, E.
    + unfold ret, raise.
      destruct (fs_is_dir _ _ _) eqn:D, e; intros [= <- <-];
        (split; [apply grows_refl | auto; discriminate]).
  - destruct (os_mkdir _ _ _) as [fs'|e] eqn:E.
    + unfold put_fs. intros [= <- <-]. cbn. split.
      * apply os_mkdir_ok in E as (l & _ & _ & Hnone & ->).
        now apply grows_insert_dir.
      * intros _. eapply os_mkdir_is_dir, E.
    + assert (Hother : ∀ r w',
        (if fs_is_dir (cwd env) (fsys w) p then ret () else raise (OSError e p)) w
        = (r, w') →
        grows (fsys w) (fsys w')
        ∧ (r = Ok () → fs_is_dir (cwd env) (fsys w') p = true)).
      { intros r0 w0. unfold ret, raise.
        destruct (fs_is_dir _ _ _) eqn:D; intros [= <- <-];
          (split; [apply grows_refl | auto; discriminate]). }
      destruct e; try apply Hother. clear Hother.
      destruct (bool_decide _).
      { unfold raise. intros [= <- <-]. split; [apply grows_refl|discriminate]. }
      unfold bind.
      destruct (mkdir_parents env n (parent p) w) as [[[]|e] w1] eqn:E1.
      * apply IH in E1 as [G1 _]. intros H.
        apply path_mkdir_grows in H as [G2 D2]. split; [|exact D2].
        eapply grows_trans; eauto.
      * apply IH in E1 as [G1 _]. intros [= <- <-]. split; [auto|discriminate].
Qed.

(** Making a directory that is there changes nothing. *)
Lemma mkdir_parents_existing (n : nat) (p : Path) (w : World) :
  fs_is_dir (cwd env) (fsys w) p = true →
  mkdir_parents env n p w = (Ok (), w).
Proof.
  intros D. destruct n; simpl; unfold bind, get_fs;
    rewrite (os_mkdir_existing _ _ _ D), D; reflexivity.
Qed.



End Init.

(** ** The symlink reconciler *)

(** C2, at a plain directory: [unlink] refuses directories, so the
    reconciler raises [IsADirectoryError] and the path is still a directory,
    not a link; a regular file in the same place is replaced as the claim
    says. *)
Lemma C2_plain_directory_is_not_replaced :
  let r := _create_or_update_symlink env_tmp immediate link_app docs_app
             ".neurolora" (world0 fs_link_is_dir) in
  fst r = Err (OSError EISDIR link_app)
  ∧ fs_is_symlink (cwd env_tmp) (fsys (snd r)) link_app = false
  ∧ fs_is_dir (cwd env_tmp) (fsys (snd r)) link_app = true
  ∧ fst (setup env_tmp immediate sm_app (world0 fs_link_is_dir))
    = Err (OSError EISDIR link_app)
  ∧ let r' := _create_or_update_symlink env_tmp immediate link_app docs_app
                ".neurolora" (world0 fs_link_is_file) in
    fst r' = Ok ()
    ∧ fs_is_symlink (cwd env_tmp) (fsys (snd r')) link_app = true
    ∧ fs_resolve (cwd env_tmp) (fsys (snd r')) link_app = Ok docs_app.
Proof. vm_compute. repeat split. Qed.

(** C4, at a link whose target is gone: [exists] follows the link and
    answers no, the reconciler takes the branch for a missing path and
    [symlink_to] raises [FileExistsError]; the link still points to the old
    target.  A link to another directory that exists is replaced as the
    claim says. *)
Lemma C4_dangling_link_is_not_replaced :
  let r := _create_or_update_symlink env_tmp immediate link_app docs_app
             ".neurolora" (world0 fs_link_dangling) in
  fs_is_symlink (cwd env_tmp) fs_link_dangling link_app = true
  ∧ fs_resolve (cwd env_tmp) fs_link_dangling link_app
    = Ok (parse "/nowhere/old")
  ∧ fst r = Err (OSError EEXIST link_app)
  ∧ fs_readlink (cwd env_tmp) (fsys (snd r)) link_app
    = Some (parse "/nowhere/old")
  ∧ fst (setup env_tmp immediate sm_app (world0 fs_link_dangling))
    = Err (OSError EEXIST link_app)
  ∧ let r' := _create_or_update_symlink env_tmp immediate link_app docs_app
                ".neurolora" (world0 fs_link_elsewhere) in
    fst r' = Ok ()
    ∧ fs_resolve (cwd env_tmp) (fsys (snd r')) link_app = Ok docs_app.
Proof. vm_compute. repeat split. Qed.

Section Reconcile.

Context (env : Env) (observe : nat → bool → bool).


(** Checking a link after the fact reads the filesystem and changes
    nothing. *)
Lemma path_exists_fsys (p : Path) (w : World) r w' :
  path_exists env observe p w = (r, w') → fsys w' = fsys w.
Proof. now intros [= <- <-]. Qed.

Lemma path_is_symlink_run (p : Path) (w : World) :
  path_is_symlink env p w = (Ok (fs_is_symlink (cwd env) (fsys w) p), w).
Proof. reflexivity. Qed.

Lemma path_resolve_Ok (p q : Path) (w w' : World) :
  path_resolve env p w = (Ok q, w') →
  w' = w ∧ fs_resolve (cwd env) (fsys w) p = Ok q.
Proof.
  unfold path_resolve, bind, get_fs.
  destruct (fs_resolve _ _ _); [|discriminate]. now intros [= <- <-].
Qed.

Lemma guard_Ok (b : bool) (e : exc) (w w' : World) (a : ()) :
  (if b then raise e else ret ()) w = (Ok a, w') → b = false ∧ w' = w.
Proof. destruct b; [discriminate|]. now intros [= <-]. Qed.


End Reconcile.

(** ** Runs that only read *)

Lemma reads_ret {A} (a : A) : reads (ret a).
Proof. now intros w r w' [= <- <-]. Qed.

Lemma reads_raise {A} (e : exc) : reads (@raise A e).
Proof. now intros w r w' [= <- <-]. Qed.

Lemma reads_emit (ev : event) : reads (emit ev).
Proof. now intros w r w' [= <- <-]. Qed.

Lemma reads_log (lv : level) (msg : string) : reads (log lv msg).
Proof. apply reads_emit. Qed.

Lemma reads_bind {A B} (m : M A) (f : A → M B) :
  reads m → (∀ a, reads (f a)) → reads (bind m f).
Proof.
  intros Hm Hf w r w'. unfold bind.
  destruct (m w) as [[a|e] w1] eqn:E; apply Hm in E.
  - intros H. apply Hf in H. congruence.
  - intros [= <- <-]. exact E.
Qed.

Lemma reads_if {A} (b : bool) (m1 m2 : M A) :
  reads m1 → reads m2 → reads (if b then m1 else m2).
Proof. now destruct b. Qed.

Lemma reads_try_except {A} (m : M A) (h : exc → M A) :
  reads m → (∀ e, reads (h e)) → reads (try_except m h).
Proof.
  intros Hm Hh w r w'. unfold try_except.
  destruct (m w) as [[a|e] w1] eqn:E; apply Hm in E.
  - now intros [= <- <-].
  - intros H. apply Hh in H. congruence.
Qed.

Lemma reads_for_retries (n : nat) (check : M bool) (orelse : M unit) :
  reads check → reads orelse → reads (for_retries n check orelse).
Proof.
  intros Hc Ho. induction n as [|n IH]; [exact Ho|]. simpl.
  apply reads_bind; [exact Hc|]. intros b. apply reads_if; [apply reads_ret|].
  apply reads_bind; [apply reads_emit|]. intros _. exact IH.
Qed.

Section ReadsPaths.

Context (env : Env) (observe : nat → bool → bool).

Lemma reads_path_exists (p : Path) : reads (path_exists env observe p).
Proof. now intros w r w' [= <- <-]. Qed.

Lemma reads_path_is_symlink (p : Path) : reads (path_is_symlink env p).
Proof. now intros w r w' [= <- <-]. Qed.

Lemma reads_path_resolve (p : Path) : reads (path_resolve env p).
Proof.
  intros w r w'. unfold path_resolve, bind, get_fs.
  destruct (fs_resolve _ _ _); now intros [= <- <-].
Qed.

End ReadsPaths.

Create HintDb reads.

#[local] Hint Resolve reads_ret reads_raise reads_emit reads_log
  reads_path_exists reads_path_is_symlink reads_path_resolve : reads.

(** Proves that a composite run only reads. *)
Ltac solve_reads :=
  repeat first
    [ solve [eauto with reads]
    | apply reads_for_retries
    | apply reads_try_except; [|intros ?]
    | apply reads_if
    | apply reads_bind; [|intros ?] ].

(** ** Runs that return on a given filesystem *)

Lemma returns_ret {A} (a : A) (fs : FS) : returns (ret a) fs a.
Proof. intros w <-. eauto. Qed.

Lemma returns_emit (ev : event) (fs : FS) : returns (emit ev) fs ().
Proof. intros w <-. eexists. split; reflexivity. Qed.

Lemma returns_log (lv : level) (msg : string) (fs : FS) :
  returns (log lv msg) fs ().
Proof. apply returns_emit. Qed.

Lemma returns_bind {A B} (m : M A) (f : A → M B) (fs : FS) (a : A) (b : B) :
  returns m fs a → returns (f a) fs b → returns (bind m f) fs b.
Proof.
  intros Hm Hf w Hw. destruct (Hm w Hw) as (w1 & E1 & Hw1).
  destruct (Hf w1 Hw1) as (w2 & E2 & Hw2).
  exists w2. unfold bind. now rewrite E1.
Qed.

Lemma returns_try_except {A} (m : M A) (h : exc → M A) (fs : FS) (a : A) :
  returns m fs a → returns (try_except m h) fs a.
Proof.
  intros Hm w Hw. destruct (Hm w Hw) as (w1 & E1 & Hw1).
  exists w1. unfold try_except. now rewrite E1.
Qed.

Lemma returns_for_retries (n : nat) (check : M bool) (orelse : M unit) (fs : FS) :
  returns check fs true → returns (for_retries (S n) check orelse) fs ().
Proof.
  intros Hc. simpl. eapply returns_bind; [exact Hc|]. apply returns_ret.
Qed.

Section ReturnsPaths.

Context (env : Env).

Lemma returns_path_exists (p : Path) (fs : FS) :
  returns (path_exists env immediate p) fs (fs_exists (cwd env) fs p).
Proof. intros w <-. eexists. split; reflexivity. Qed.

Lemma returns_path_is_symlink (p : Path) (fs : FS) :
  returns (path_is_symlink env p) fs (fs_is_symlink (cwd env) fs p).
Proof. intros w <-. eexists. split; reflexivity. Qed.

Lemma returns_path_resolve (p q : Path) (fs : FS) :
  fs_resolve (cwd env) fs p = Ok q → returns (path_resolve env p) fs q.
Proof.
  intros H w <-. exists w. unfold path_resolve, bind, get_fs.
  now rewrite H.
Qed.

Lemma returns_mkdir_existing (p : Path) (fs : FS) :
  fs_is_dir (cwd env) fs p = true → returns (path_mkdir_parents env p) fs ().
Proof.
  intros H w <-. exists w. split; [|reflexivity].
  unfold path_mkdir_parents. now apply mkdir_parents_existing.
Qed.

(** Writing to a file what it holds. *)
Lemma returns_write_same (p : Path) (s : string) (fs : FS) (l : loc) :
  locate true (cwd env) fs p = Ok l →
  node_at fs l = Some (File (Text s)) →
  returns (write_text env p s) fs ().
Proof.
  intros Hl Hs w <-. exists w. split; [|reflexivity].
  unfold write_text, bind, get_fs, os_write. rewrite Hl, Hs.
  unfold lift_os, ret, put_fs.
  destruct l as [|c l]; [discriminate|]. cbn [node_at] in Hs.
  rewrite insert_id by exact Hs. now destruct w.
Qed.

End ReturnsPaths.

(** ** Running on a settled filesystem *)

Section SettledRuns.

Context (env : Env) (self : StorageManager).

Lemma is_dir_exists (fs : FS) (p : Path) :
  fs_is_dir (cwd env) fs p = true → fs_exists (cwd env) fs p = true.
Proof. unfold fs_is_dir, fs_exists. now destruct (stat _ _ _ _). Qed.

Lemma returns_path_exists_true (p : Path) (fs : FS) :
  fs_exists (cwd env) fs p = true →
  returns (path_exists env immediate p) fs true.
Proof. intros <-. apply returns_path_exists. Qed.

Lemma returns_path_is_symlink_true (p : Path) (fs : FS) :
  fs_is_symlink (cwd env) fs p = true →
  returns (path_is_symlink env p) fs true.
Proof. intros <-. apply returns_path_is_symlink. Qed.

(** One step of a run that leaves the filesystem alone. *)
Ltac returns_step tac :=
  eapply returns_bind; [tac|]; cbv beta iota.

Lemma create_directories_settled (fs : FS) :
  dirs_ready env self fs →
  returns (_create_directories env immediate self) fs ().
Proof.
  intros [Hdir (l & Hl & Hn)]. unfold _create_directories. cbv zeta.
  apply returns_try_except.
  returns_step ltac:(apply returns_mkdir_existing, Hdir).
  returns_step ltac:(apply returns_log).
  returns_step ltac:(eapply returns_write_same; eassumption).
  returns_step ltac:(apply returns_emit).
  returns_step ltac:(apply returns_emit).
  returns_step ltac:(apply returns_path_exists_true, is_dir_exists, Hdir).
  cbn [negb]. returns_step ltac:(apply returns_ret).
  returns_step ltac:(apply returns_for_retries, returns_path_exists_true,
                     is_dir_exists, Hdir).
  apply returns_emit.
Qed.

Lemma create_or_update_symlink_settled (fs : FS) :
  fs_is_dir (cwd env) fs (project_docs_dir self) = true →
  link_ready env self fs →
  returns (_create_or_update_symlink env immediate (neurolora_link self)
             (project_docs_dir self) ".neurolora") fs ().
Proof.
  intros Hdir (Hex & Hsym & Hres). unfold _create_or_update_symlink. cbv zeta.
  returns_step ltac:(apply returns_log).
  apply returns_try_except.
  returns_step ltac:(apply returns_mkdir_existing, Hdir).
  returns_step ltac:(apply returns_path_exists_true, Hex).
  returns_step ltac:(
    returns_step ltac:(apply returns_log);
    returns_step ltac:(apply returns_path_is_symlink_true, Hsym);
    cbn [negb];
    returns_step ltac:(apply returns_path_resolve, Hres);
    rewrite bool_decide_eq_false_2 by (intros H; now apply H);
    apply returns_ret).
  returns_step ltac:(apply returns_path_exists_true, Hex).
  cbn [negb]. returns_step ltac:(apply returns_ret).
  returns_step ltac:(apply returns_path_is_symlink_true, Hsym).
  cbn [negb]. returns_step ltac:(apply returns_ret).
  returns_step ltac:(apply returns_path_resolve, Hres).
  rewrite bool_decide_eq_false_2 by (intros H; now apply H).
  returns_step ltac:(apply returns_ret).
  apply returns_log.
Qed.

Lemma create_symlinks_settled (fs : FS) :
  fs_is_dir (cwd env) fs (project_docs_dir self) = true →
  link_ready env self fs →
  returns (_create_symlinks env immediate self) fs ().
Proof.
  intros Hdir Hlink. pose proof Hlink as (Hex & Hsym & Hres).
  unfold _create_symlinks. cbv zeta. apply returns_try_except.
  returns_step ltac:(now apply create_or_update_symlink_settled).
  returns_step ltac:(apply returns_emit).
  returns_step ltac:(
    apply returns_for_retries;
    returns_step ltac:(apply returns_path_exists_true, Hex);
    apply returns_path_is_symlink_true, Hsym).
  returns_step ltac:(apply returns_emit).
  apply returns_log.
Qed.

(** With the destination in place the seeder does nothing at all. *)
Lemma create_template_file_present
  (template_name output_name : string) (output_dir : option Path) (w : World) :
  fs_exists (cwd env) (fsys w) (output_file_of self output_name output_dir)
  = true →
  _create_template_file env immediate self template_name output_name output_dir w
  = (Ok (), {| fsys := fsys w; nobs := S (nobs w); trace := trace w |}).
Proof.
  intros Hexists.
  unfold _create_template_file, try_except, bind, path_exists, immediate.
  unfold output_file_of in Hexists. simpl. rewrite Hexists. reflexivity.
Qed.

(** With neither destination nor template the seeder warns and goes on. *)
Lemma create_template_file_missing
  (template_name output_name : string) (output_dir : option Path) (w : World) :
  fs_exists (cwd env) (fsys w) (output_file_of self output_name output_dir)
  = false →
  fs_exists (cwd env) (fsys w) (template_file_of env template_name) = false →
  _create_template_file env immediate self template_name output_name output_dir w
  = (Ok (),
     {| fsys := fsys w;
        nobs := S (S (nobs w));
        trace := trace w ++
          [Log WARNING ("Template file not found: "
                        +:+ str_path (template_file_of env template_name))] |}).
Proof.
  intros Hdest Htemplate.
  unfold _create_template_file, try_except, bind, path_exists, immediate.
  unfold output_file_of in Hdest. unfold template_file_of in Htemplate.
  simpl. rewrite Hdest. simpl. rewrite Htemplate. reflexivity.
Qed.

Lemma create_template_file_settled
  (template_name output_name : string) (output_dir : option Path) (fs : FS) :
  seed_done env self template_name output_name output_dir fs →
  returns (_create_template_file env immediate self template_name output_name
             output_dir) fs ().
Proof.
  intros Hdone w <-.
  destruct (fs_exists (cwd env) (fsys w)
              (output_file_of self output_name output_dir)) eqn:Hdest.
  - rewrite create_template_file_present by exact Hdest. eauto.
  - destruct Hdone as [Hdone|Htemplate]; [congruence|].
    rewrite create_template_file_missing by assumption. eauto.
Qed.

(** On a settled filesystem [setup] succeeds and changes nothing. *)
Lemma setup_settled (fs : FS) :
  settled env self fs → returns (setup env immediate self) fs ().
Proof.
  intros (Hdirs & Hlink & Hignore & Htodo & Hdone). unfold setup.
  returns_step ltac:(now apply create_directories_settled).
  returns_step ltac:(apply create_symlinks_settled; [apply Hdirs|exact Hlink]).
  returns_step ltac:(apply create_template_file_settled, Hignore).
  returns_step ltac:(
    returns_step ltac:(apply create_template_file_settled, Htodo);
    apply create_template_file_settled, Hdone).
  apply returns_log.
Qed.

End SettledRuns.

(** ** The template seeder *)

Section Seeder.

Context (env : Env) (self : StorageManager).

(** C5: when the destination exists, whatever it holds,
    [_create_template_file] returns without raising and the filesystem and
    the trace are those it was called with: nothing is written, read or
    logged. *)
Theorem C5_existing_destination_untouched
  (template_name output_name : string) (output_dir : option Path) (w : World)
  (Hexists : fs_exists (cwd env) (fsys w)
               (output_file_of self output_name output_dir) = true) :
  let r := _create_template_file env immediate self template_name output_name
             output_dir w in
  fst r = Ok ()
  ∧ fsys (snd r) = fsys w
  ∧ trace (snd r) = trace w.
Proof.
  intros r. subst r.
  rewrite create_template_file_present by exact Hexists. repeat split.
Qed.

(** C7: when neither the destination nor the bundled template exists,
    [_create_template_file] returns without raising, leaves the filesystem
    as it was, so that the destination still does not exist, and adds
    exactly one record to the trace, a warning. *)
Theorem C7_missing_template_is_tolerated
  (template_name output_name : string) (output_dir : option Path) (w : World)
  (Hdest : fs_exists (cwd env) (fsys w)
             (output_file_of self output_name output_dir) = false)
  (Htemplate : fs_exists (cwd env) (fsys w)
                 (template_file_of env template_name) = false) :
  let r := _create_template_file env immediate self template_name output_name
             output_dir w in
  fst r = Ok ()
  ∧ fsys (snd r) = fsys w
  ∧ fs_exists (cwd env) (fsys (snd r))
      (output_file_of self output_name output_dir) = false
  ∧ trace (snd r)
    = trace w ++ [Log WARNING ("Template file not found: "
                               +:+ str_path (template_file_of env template_name))].
Proof.
  intros r. subst r.
  rewrite create_template_file_missing by assumption. cbn [fst snd fsys trace].
  repeat split. exact Hdest.
Qed.

End Seeder.

(** ** Names *)

Lemma simple_names (n : string) : n ∈ managed_names → simple_name n.
Proof.
  unfold managed_names, file_names. rewrite !elem_of_cons, elem_of_nil.
  intros H. repeat destruct H as [->|H]; try (split; vm_compute; reflexivity).
  destruct H.
Qed.

Lemma simple_initialized : simple_name ".initialized".
Proof. split; vm_compute; reflexivity. Qed.


Lemma joinpath_simple (p : Path) (n : string) :
  simple_name n →
  p // n = {| absolute := absolute p; parts := parts p ++ [n] |}.
Proof. intros [Hn _]. unfold joinpath. now rewrite Hn. Qed.

Lemma snoc_ne (l1 l2 : loc) (n1 n2 : string) :
  n1 ≠ n2 → l1 ++ [n1] ≠ l2 ++ [n2].
Proof. intros Hn H. apply app_inj_tail in H as [_ H]. contradiction. Qed.

Lemma node_at_insert_ne (fs : FS) (l q : loc) (n : node) :
  l ≠ q → node_at (<[q := n]> fs) l = node_at fs l.
Proof. intros H. destruct l; [reflexivity|]. simpl. now rewrite lookup_insert_ne. Qed.

Lemma node_at_nonempty (fs : FS) (l : loc) : l ≠ [] → node_at fs l = fs !! l.
Proof. now destruct l. Qed.

Lemma node_at_leaf (fs : FS) (q : loc) :
  q ≠ [] → leaf fs q →
  node_at fs q = None ∨ ∃ c, node_at fs q = Some (File c).
Proof. destruct q; [congruence|]. intros _ H. exact H. Qed.

(** ** How filesystem changes carry over to what paths name *)

Section Transport.

Context (cwd : Path).

(** The location a path with a simple last name leads to bears that name. *)
Lemma locate_last_name (follow : bool) (fs : FS) (p : Path) (n : string) (l : loc) :
  simple_name n → no_link_named n fs →
  locate follow cwd fs (p // n) = Ok l → ∃ l0, l = l0 ++ [n].
Proof.
  intros Hn Hfs. rewrite joinpath_simple by exact Hn. unfold locate. cbn [parts].
  apply walk_last_name; [apply Hn|exact Hfs].
Qed.

Lemma locate_update_leaf (follow : bool) (fs : FS) (q : loc) (n : node)
  (p : Path) (l : loc) :
  leaf fs q → locate follow cwd fs p = Ok l → l ≠ q →
  locate follow cwd (<[q := n]> fs) p = Ok l.
Proof. intros Hq Hl Hne. unfold locate in *. apply walk_update_leaf; auto. Qed.

(** What [stat] answers is kept when an entry is put where nothing or a
    regular file was, away from where the path leads. *)
Lemma stat_update_leaf (follow : bool) (fs : FS) (q : loc) (n : node)
  (p : Path) (nd : node) :
  leaf fs q →
  stat follow cwd fs p = Ok nd →
  (∀ l, locate follow cwd fs p = Ok l → l ≠ q) →
  stat follow cwd (<[q := n]> fs) p = Ok nd.
Proof.
  intros Hq. unfold stat.
  destruct (locate follow cwd fs p) as [l|] eqn:E; [|discriminate].
  intros Hnd Hne. specialize (Hne l eq_refl).
  erewrite locate_update_leaf by eassumption.
  now rewrite node_at_insert_ne.
Qed.

Lemma is_dir_update_leaf (fs : FS) (q : loc) (n : node) (p : Path) :
  leaf fs q → q ≠ [] →
  fs_is_dir cwd fs p = true → fs_is_dir cwd (<[q := n]> fs) p = true.
Proof.
  intros Hq Hq0. unfold fs_is_dir.
  destruct (stat true cwd fs p) as [[| |]|] eqn:E; try discriminate.
  intros _. rewrite (stat_update_leaf true fs q n p Dir Hq E); [reflexivity|].
  intros l Hl Heq. subst l. unfold stat in E. rewrite Hl in E.
  destruct (node_at_leaf fs q Hq0 Hq) as [H|[c H]]; rewrite H in E;
    discriminate.
Qed.

Lemma stat_insert_fresh (follow : bool) (fs : FS) (q : loc) (n : node)
  (p : Path) (nd : node) :
  fs !! q = None → q ≠ [] →
  stat follow cwd fs p = Ok nd → stat follow cwd (<[q := n]> fs) p = Ok nd.
Proof.
  intros Hq Hq0 E. eapply stat_update_leaf; eauto; [now left|].
  intros l Hl Heq. subst l. unfold stat in E. rewrite Hl in E.
  destruct q; [congruence|]. cbn [node_at] in E. rewrite Hq in E.
  discriminate.
Qed.

Lemma exists_insert_fresh (fs : FS) (q : loc) (n : node) (p : Path) :
  fs !! q = None → q ≠ [] →
  fs_exists cwd fs p = true → fs_exists cwd (<[q := n]> fs) p = true.
Proof.
  intros Hq Hq0. unfold fs_exists.
  destruct (stat true cwd fs p) eqn:E; [|discriminate].
  now erewrite stat_insert_fresh by eassumption.
Qed.

Lemma is_symlink_insert_fresh (fs : FS) (q : loc) (n : node) (p : Path) :
  fs !! q = None → q ≠ [] →
  fs_is_symlink cwd fs p = true → fs_is_symlink cwd (<[q := n]> fs) p = true.
Proof.
  intros Hq Hq0. unfold fs_is_symlink.
  destruct (stat false cwd fs p) as [[| |]|] eqn:E; try discriminate.
  now erewrite stat_insert_fresh by eassumption.
Qed.

Lemma resolve_insert_file (fs : FS) (q : loc) (c : content) (p : Path) :
  leaf fs q →
  fs_resolve cwd (<[q := File c]> fs) p = fs_resolve cwd fs p.
Proof. intros Hq. unfold fs_resolve. now rewrite walk_nonstrict_file. Qed.

(** A path that names nothing still names nothing after a regular file is
    created somewhere else. *)
Lemma absent_insert_file (fs : FS) (q : loc) (c : content) (p : Path) :
  fs !! q = None →
  fs_exists cwd fs p = false →
  (∀ l, locate true cwd fs p = Ok l → l ≠ q) →
  fs_exists cwd (<[q := File c]> fs) p = false.
Proof.
  intros Hq. unfold fs_exists, stat.
  destruct (locate true cwd fs p) as [l|e] eqn:E.
  - intros Hn Hne. specialize (Hne l eq_refl).
    erewrite locate_update_leaf; eauto; [|now left].
    rewrite node_at_insert_ne by exact Hne.
    now destruct (node_at fs l).
  - intros _ _. unfold locate in *.
    eapply walk_insert_file_err in E as [e' ->]; eauto.
Qed.

(** A file just written exists. *)
Lemma exists_after_write (fs : FS) (p : Path) (l : loc) (c : content) :
  leaf fs l → l ≠ [] → locate true cwd fs p = Ok l →
  fs_exists cwd (<[l := File c]> fs) p = true.
Proof.
  intros Hl Hl0 E. unfold fs_exists, stat, locate in *.
  erewrite walk_update_leaf; [|exact Hl|exact E|right; right; discriminate].
  now rewrite node_at_insert_eq.
Qed.

(** A path that is not a link is not one after directories are made or a
    regular file is written. *)
Lemma not_a_link_grows (fs fs' : FS) (p : Path) :
  grows fs fs' → not_a_link cwd fs p → not_a_link cwd fs' p.
Proof.
  intros G (l & Hl & Hn). exists l. split.
  - unfold locate in *. eapply walk_grows; eauto.
  - intros t. destruct l as [|c l]; [discriminate|]. cbn [node_at] in *.
    destruct (G (c :: l)) as [->|[_ ->]]; [apply Hn|discriminate].
Qed.

Lemma not_a_link_file (fs : FS) (q : loc) (c : content) (p : Path) :
  leaf fs q → not_a_link cwd fs p → not_a_link cwd (<[q := File c]> fs) p.
Proof.
  intros Hq (l & Hl & Hn). exists l. split.
  - unfold locate in *. apply walk_update_leaf; auto.
  - intros t. destruct (decide (l = q)) as [->|Hne].
    + destruct q; [discriminate|]. cbn [node_at].
      rewrite lookup_insert_eq. discriminate.
    + rewrite node_at_insert_ne by exact Hne. apply Hn.
Qed.

(** The location a path that is not followed leads to bears its last
    name. *)
Lemma locate_last_name_nofollow (fs : FS) (p : Path) (n : string) (l : loc) :
  simple_name n →
  locate false cwd fs (p // n) = Ok l → ∃ l0, l = l0 ++ [n].
Proof.
  intros Hn. rewrite joinpath_simple by exact Hn. unfold locate. cbn [parts].
  apply walk_last_name_nofollow, Hn.
Qed.

End Transport.

(** ** Links and their names *)

Lemma no_link_named_grows (n : string) (fs fs' : FS) :
  grows fs fs' → no_link_named n fs → no_link_named n fs'.
Proof.
  intros G H l t E. destruct (G (l ++ [n])) as [G1|[_ G2]].
  - rewrite G1 in E. now apply H in E.
  - congruence.
Qed.

Lemma no_link_named_file (n : string) (fs : FS) (q : loc) (c : content) :
  no_link_named n fs → no_link_named n (<[q := File c]> fs).
Proof.
  intros H l t. destruct (decide (q = l ++ [n])) as [->|Hne].
  - rewrite lookup_insert_eq. discriminate.
  - rewrite lookup_insert_ne by exact Hne. apply H.
Qed.

Lemma no_link_named_other (n n' : string) (fs : FS) (l0 : loc) (nd : node) :
  n ≠ n' → no_link_named n fs → no_link_named n (<[l0 ++ [n'] := nd]> fs).
Proof.
  intros Hn H l t. rewrite lookup_insert_ne; [apply H|].
  apply snoc_ne. congruence.
Qed.

(** ** What a successful run has done *)

Section Inversion.

Context (env : Env).

Lemma write_text_Ok_inv (p : Path) (s : string) (w w' : World) (u : ()) :
  write_text env p s w = (Ok u, w') →
  ∃ l, locate true (cwd env) (fsys w) p = Ok l ∧ l ≠ [] ∧ leaf (fsys w) l
       ∧ fsys w' = <[l := File (Text s)]> (fsys w).
Proof.
  unfold write_text. intros E. bind_inv E. bind_inv E.
  injection E0 as <- <-. unfold lift_os, os_write in E1.
  destruct (locate true _ _ p) as [l|] eqn:El; [|discriminate].
  exists l. split; [reflexivity|].
  destruct l as [|c l]; [discriminate|]. cbn [node_at] in E1.
  split; [discriminate|].
  destruct (fsys w !! (c :: l)) as [[| |]|] eqn:En; try discriminate;
    injection E1 as <- <-; injection E as _ <-;
    (split; [|reflexivity]); [right; eauto|now left].
Qed.

Lemma path_symlink_to_inv (link rel : Path) (w w' : World) (u : ()) :
  path_symlink_to env link rel w = (Ok u, w') →
  os_symlink (cwd env) (fsys w) rel link = Ok (fsys w').
Proof.
  unfold path_symlink_to. intros E. bind_inv E. bind_inv E.
  injection E0 as <- <-. unfold lift_os in E1.
  destruct (os_symlink _ _ _ _) as [fs'|]; [|discriminate].
  injection E1 as <- <-. now injection E as _ <-.
Qed.

Lemma path_unlink_inv (p : Path) (w w' : World) (u : ()) :
  path_unlink env p w = (Ok u, w') →
  os_unlink (cwd env) (fsys w) p = Ok (fsys w').
Proof.
  unfold path_unlink. intros E. bind_inv E. bind_inv E.
  injection E0 as <- <-. unfold lift_os in E1.
  destruct (os_unlink _ _ _) as [fs'|]; [|discriminate].
  injection E1 as <- <-. now injection E as _ <-.
Qed.

Lemma os_unlink_ok (fs fs' : FS) (p : Path) :
  os_unlink (cwd env) fs p = Ok fs' →
  ∃ l nd, locate false (cwd env) fs p = Ok l ∧ l ≠ [] ∧ fs !! l = Some nd
          ∧ nd ≠ Dir ∧ fs' = delete l fs.
Proof.
  unfold os_unlink. destruct (locate false _ fs p) as [l|]; [|discriminate].
  destruct l as [|c l]; [discriminate|]. cbn [node_at].
  destruct (fs !! (c :: l)) as [[| |]|] eqn:E; try discriminate;
    intros [= <-]; eexists _, _; repeat split; eauto; discriminate.
Qed.

(** The link a successful [os.symlink] leaves holds the target given. *)
Lemma os_symlink_readlink (fs fs' : FS) (rel link : Path) :
  os_symlink (cwd env) fs rel link = Ok fs' →
  fs_readlink (cwd env) fs' link = Some rel.
Proof.
  intros (l & Hloc & Hl & Hnone & ->)%os_symlink_ok.
  unfold fs_readlink, stat, locate in *.
  erewrite walk_insert; eauto.
  now rewrite node_at_insert_eq.
Qed.

(** What [_create_or_update_symlink] has done when it returns: made the
    target directory, then either found the link in place or created it,
    possibly after removing what was there; and checked the outcome. *)
Lemma reconcile_inv (observe : nat → bool → bool)
  (link_path target_path : Path) (link_name : string) (w w' : World) (u : ()) :
  _create_or_update_symlink env observe link_path target_path link_name w
  = (Ok u, w') →
  let rel := relpath (cwd env) target_path (parent link_path) in
  ∃ wl w0 k,
    fsys wl = fsys w
    ∧ mkdir_parents env (length (parts target_path)) target_path wl = (Ok (), w0)
    ∧ observe k (fs_exists (cwd env) (fsys w') link_path) = true
    ∧ fs_is_symlink (cwd env) (fsys w') link_path = true
    ∧ fs_resolve (cwd env) (fsys w') link_path = Ok target_path
    ∧ ((fsys w' = fsys w0
        ∧ fs_is_symlink (cwd env) (fsys w0) link_path = true)
       ∨ os_symlink (cwd env) (fsys w0) rel link_path = Ok (fsys w')
       ∨ ∃ fs_u, os_unlink (cwd env) (fsys w0) link_path = Ok fs_u
                 ∧ os_symlink (cwd env) fs_u rel link_path = Ok (fsys w')).
Proof.
  intros Hrun rel.
  unfold _create_or_update_symlink in Hrun. fold rel in Hrun.
  bind_inv Hrun as u0 wl El. injection El as _ <-.
  apply try_except_Ok_inv in Hrun; [|intros; apply log_then_raise_fails].
  bind_inv Hrun as u1 w0 Emk. unfold path_mkdir_parents in Emk. destruct u1.
  bind_inv Hrun as b w1 Eex. apply path_exists_fsys in Eex as Hfs1.
  bind_inv Hrun as u2 w2 Hact.
  (* the checks after the action *)
  bind_inv Hrun as b2 w3 Eex2. injection Eex2 as <- <-.
  bind_inv Hrun as u3 w4 Eg1. apply guard_Ok in Eg1 as [Hex ->].
  apply negb_false_iff in Hex.
  bind_inv Hrun as s w5 Es. rewrite path_is_symlink_run in Es.
  injection Es as <- <-.
  bind_inv Hrun as u4 w6 Eg2. apply guard_Ok in Eg2 as [Hsym ->].
  apply negb_false_iff in Hsym. cbn [fsys] in Hsym.
  bind_inv Hrun as r w7 Er. apply path_resolve_Ok in Er as [-> Hres].
  cbn [fsys] in Hres.
  bind_inv Hrun as u5 w8 Eg3. apply guard_Ok in Eg3 as [Hsame ->].
  apply bool_decide_eq_false in Hsame. apply dec_stable in Hsame.
  rewrite Hsame in Hres.
  injection Hrun as _ <-. cbn [fsys].
  refine (ex_intro _ _ (ex_intro _ w0 (ex_intro _ (nobs w2)
            (conj _ (conj Emk _))))); [reflexivity|].
  split; [exact Hex|].
  split; [exact Hsym|]. split; [exact Hres|].
  (* the action *)
  destruct b.
  - bind_inv Hact as u6 w9 El. injection El as _ <-.
    bind_inv Hact as s0 w10 Es. rewrite path_is_symlink_run in Es.
    injection Es as <- <-. cbn [fsys] in Hact. rewrite Hfs1 in Hact.
    destruct (fs_is_symlink _ _ _) eqn:Hs0; cbn [negb] in Hact.
    + bind_inv Hact as r0 w11 Er. apply path_resolve_Ok in Er as [-> _].
      destruct (bool_decide _).
      * bind_inv Hact as u7 w12 El. injection El as _ <-.
        bind_inv Hact as u8 w13 Eun. apply path_unlink_inv in Eun.
        apply path_symlink_to_inv in Hact. cbn [fsys] in Eun.
        rewrite ?Hfs1 in Eun. right. right. eauto.
      * injection Hact as _ <-. cbn [fsys]. left. split; reflexivity.
    + bind_inv Hact as u7 w12 El. injection El as _ <-.
      bind_inv Hact as u8 w13 Eun. apply path_unlink_inv in Eun.
      apply path_symlink_to_inv in Hact. cbn [fsys] in Eun.
      rewrite ?Hfs1 in Eun. right. right. eauto.
  - bind_inv Hact as u6 w9 El. injection El as _ <-.
    bind_inv Hact as u7 w10 Esl. apply path_symlink_to_inv in Esl.
    cbn [fsys] in Esl. rewrite ?Hfs1 in Esl.
    injection Hact as _ <-. cbn [fsys]. right. now left.
Qed.

Context (self : StorageManager).

Lemma snoc_not_nil (l0 : loc) (n : string) : l0 ++ [n] ≠ [].
Proof. now destruct l0. Qed.

Lemma locate_after_write (fs : FS) (p : Path) (l : loc) (c : content) :
  leaf fs l → locate true (cwd env) fs p = Ok l →
  locate true (cwd env) (<[l := File c]> fs) p = Ok l.
Proof.
  intros Hl E. unfold locate in *.
  apply walk_update_leaf; [exact Hl|exact E|right; right; discriminate].
Qed.

(** What [_create_directories] has done when it returns. *)
Lemma create_directories_inv (w w' : World) (u : ()) :
  no_link_named ".initialized" (fsys w) →
  _create_directories env immediate self w = (Ok u, w') →
  ∃ fs1 l0,
    grows (fsys w) fs1
    ∧ leaf fs1 (l0 ++ [".initialized"])
    ∧ fsys w' = <[l0 ++ [".initialized"] := File (Text "initialized")]> fs1
    ∧ dirs_ready env self (fsys w').
Proof.
  intros Hnl Hrun. unfold _create_directories in Hrun.
  apply try_except_Ok_inv in Hrun; [|intros; apply log_then_raise_fails].
  cbv zeta in Hrun.
  bind_inv Hrun as u1 w1 Emk. unfold path_mkdir_parents in Emk. destruct u1.
  apply mkdir_parents_grows in Emk as [G Hdir]. specialize (Hdir eq_refl).
  bind_inv Hrun as u2 w2 El. injection El as _ <-.
  bind_inv Hrun as u3 w3 Ew.
  apply write_text_Ok_inv in Ew as (l & Hloc & Hl0 & Hleaf & Hfs3).
  cbn [fsys] in *.
  assert (Hfs : fsys w' = fsys w3).
  { revert Hrun. generalize w3 (Ok u : result exc ()) w'.
    change (reads (emit (Fsync (project_docs_dir self // ".initialized"));;
      emit Sync;;
      b ← path_exists env immediate (project_docs_dir self);
      (if negb b
       then raise (RuntimeError ("Failed to create directory: "
                                 +:+ str_path (project_docs_dir self)))
       else ret ());;
      for_retries 10 (path_exists env immediate (project_docs_dir self))
        (raise (RuntimeError ("Directory not visible after "
                              +:+ pretty 10 +:+ " retries: "
                              +:+ str_path (project_docs_dir self))));;
      emit Sync)).
    solve_reads. }
  assert (Hnl1 : no_link_named ".initialized" (fsys w1))
    by (eapply no_link_named_grows; eauto).
  destruct (locate_last_name _ _ _ _ _ _ simple_initialized Hnl1 Hloc)
    as [l0 ->].
  exists (fsys w1), l0. split; [exact G|]. split; [exact Hleaf|].
  rewrite Hfs, Hfs3. split; [reflexivity|]. split.
  - apply is_dir_update_leaf; auto.
  - exists (l0 ++ [".initialized"]). split.
    + now apply locate_after_write.
    + now apply node_at_insert_eq.
Qed.

(** What [_create_symlinks] has done when it returns, on a filesystem where
    the documents directory exists and the link path is not a link. *)
Lemma create_symlinks_inv (w w' : World) (u : ()) :
  neurolora_link self = project_root self // ".neurolora" →
  fs_is_dir (cwd env) (fsys w) (project_docs_dir self) = true →
  not_a_link (cwd env) (fsys w) (neurolora_link self) →
  _create_symlinks env immediate self w = (Ok u, w') →
  ∃ l0 t,
    leaf (fsys w) (l0 ++ [".neurolora"])
    ∧ fsys w' = <[l0 ++ [".neurolora"] := Link t]> (fsys w)
    ∧ link_ready env self (fsys w').
Proof.
  intros Hlink Hdir (lL & HlL & HnL) Hrun. unfold _create_symlinks in Hrun.
  assert (Hsimple : simple_name ".neurolora")
    by (apply simple_names; apply list_elem_of_here).
  assert (Hname : ∃ l0, lL = l0 ++ [".neurolora"]).
  { rewrite Hlink in HlL. eapply locate_last_name_nofollow; eauto. }
  destruct Hname as [l0 ->].
  apply try_except_Ok_inv in Hrun; [|intros; apply log_then_raise_fails].
  cbv zeta in Hrun.
  bind_inv Hrun as u1 w1 Erec.
  assert (Hfs : fsys w' = fsys w1).
  { revert Hrun. generalize w1 (Ok u : result exc ()) w'.
    change (reads (emit Sync;;
      for_retries 10
        (b ← path_exists env immediate (neurolora_link self);
         if b then path_is_symlink env (neurolora_link self) else ret false)
        (raise (RuntimeError ("Symlink not visible after "
                              +:+ pretty 10 +:+ " retries: "
                              +:+ str_path (neurolora_link self))));;
      emit Sync;;
      log INFO ("Symlink created and verified: "
                +:+ str_path (neurolora_link self)))).
    solve_reads. }
  apply reconcile_inv in Erec
    as (wl & w0 & k & Hwl & Emk & Hex & Hsym & Hres & Hact).
  rewrite mkdir_parents_existing in Emk by (now rewrite Hwl).
  injection Emk as <-. rewrite Hwl in Hact. unfold immediate in Hex.
  rewrite Hfs. clear Hfs.
  assert (Hready : link_ready env self (fsys w1)) by (repeat split; assumption).
  exists l0, (relpath (cwd env) (project_docs_dir self)
                (parent (neurolora_link self))).
  destruct Hact as [[_ Hs]|[Hmk|(fs_u & Hun & Hmk)]].
  - exfalso. unfold fs_is_symlink, stat in Hs. rewrite HlL in Hs.
    destruct (node_at (fsys w) _) as [[| |t]|] eqn:Hnd; try discriminate.
    now apply (HnL t).
  - apply os_symlink_ok in Hmk as (l & Hl & Hl0 & Hnone & Heq).
    rewrite HlL in Hl. injection Hl as <-.
    split; [now left|]. split; [exact Heq|exact Hready].
  - apply os_unlink_ok in Hun as (l & nd & Hl & Hl0 & Hnd & Hnotdir & ->).
    rewrite HlL in Hl. injection Hl as <-.
    destruct nd as [|c|t]; [congruence| |].
    2:{ exfalso. apply (HnL t). now rewrite node_at_nonempty. }
    apply os_symlink_ok in Hmk as (l' & Hl' & _ & _ & Heq).
    unfold locate in HlL, Hl'.
    pose proof (walk_delete_file false (fsys w) _ c Hnd _ _ _ _ HlL) as Hl2.
    rewrite Hl2 in Hl'.
    injection Hl' as <-. rewrite insert_delete_eq in Heq.
    split; [right; eauto|]. split; [exact Heq|exact Hready].
Qed.

End Inversion.

(** ** Seeding *)

Section Seeding.

Context (env : Env) (self : StorageManager).

Lemma read_text_reads (p : Path) : reads (read_text env p).
Proof.
  intros w r w'. unfold read_text, bind, get_fs, lift_os.
  destruct (os_read _ _ _) as [[s|b]|e]; now intros [= <- <-].
Qed.

(** What [_create_template_file] has done when it returns: at most one
    regular file is new, it bears the output name, and the seed is done. *)
Lemma create_template_file_inv
  (template_name output_name : string) (output_dir : option Path)
  (w w' : World) (u : ()) :
  simple_name output_name →
  no_link_named output_name (fsys w) →
  _create_template_file env immediate self template_name output_name
    output_dir w = (Ok u, w') →
  seeded output_name (fsys w) (fsys w')
  ∧ seed_done env self template_name output_name output_dir (fsys w').
Proof.
  intros Hsimple Hnl Hrun. unfold _create_template_file in Hrun.
  apply try_except_Ok_inv in Hrun;
    [|intros e w0 a0 w1; destruct (_ || _); discriminate].
  cbv zeta in Hrun. fold (output_file_of self output_name output_dir) in Hrun.
  fold (template_file_of env template_name) in Hrun.
  bind_inv Hrun as b w1 Eex. injection Eex as <- <-. unfold immediate in Hrun.
  destruct (fs_exists _ _ (output_file_of _ _ _)) eqn:Hdest; cbn [negb] in Hrun.
  { injection Hrun as _ <-. cbn [fsys]. split; [now left|now left]. }
  bind_inv Hrun as t w2 Eex2. injection Eex2 as <- <-. cbn [fsys] in Hrun.
  destruct (fs_exists _ _ (template_file_of _ _)) eqn:Htemplate; cycle 1.
  { injection Hrun as _ <-. cbn [fsys]. split; [now left|now right]. }
  apply try_except_Ok_inv in Hrun; cycle 1.
  { intros e w0 a0 w3. destruct (is_PermissionError e); [discriminate|].
    destruct (is_UnicodeDecodeError e); [discriminate|].
    destruct (is_OSError e); discriminate. }
  bind_inv Hrun as content w3 Eread. apply read_text_reads in Eread.
  cbn [fsys] in Eread.
  bind_inv Hrun as u1 w4 Ewrite.
  apply write_text_Ok_inv in Ewrite as (l & Hloc & Hl0 & Hleaf & Hfs4).
  injection Hrun as _ <-. cbn [fsys]. rewrite Hfs4, Eread in *. clear Hfs4 Eread.
  unfold output_file_of in Hloc, Hdest |- *.
  destruct (locate_last_name _ _ _ _ _ _ Hsimple Hnl Hloc) as [l0 ->].
  assert (Hnone : fsys w !! (l0 ++ [output_name]) = None).
  { unfold fs_exists, stat in Hdest. rewrite Hloc in Hdest.
    rewrite node_at_nonempty in Hdest by exact Hl0.
    now destruct (fsys w !! (l0 ++ [output_name])). }
  split.
  - right. eauto.
  - left. unfold output_file_of. now apply exists_after_write.
Qed.

(** What holds of the layout survives a seeding. *)
Lemma dirs_ready_seeded (on : string) (fs fs' : FS) :
  seeded on fs fs' → dirs_ready env self fs → dirs_ready env self fs'.
Proof.
  intros [->|(l0 & c & Hnone & ->)]; [auto|].
  intros [Hdir (l & Hl & Hn)]. split.
  - apply is_dir_update_leaf; [now left|apply snoc_not_nil|exact Hdir].
  - assert (l ≠ l0 ++ [on]).
    { intros ->. rewrite node_at_nonempty in Hn by apply snoc_not_nil.
      congruence. }
    exists l. split.
    + apply locate_update_leaf; [now left|exact Hl|assumption].
    + now rewrite node_at_insert_ne.
Qed.

Lemma link_ready_seeded (on : string) (fs fs' : FS) :
  seeded on fs fs' → link_ready env self fs → link_ready env self fs'.
Proof.
  intros [->|(l0 & c & Hnone & ->)]; [auto|].
  intros (Hex & Hsym & Hres). pose proof (snoc_not_nil l0 on).
  split; [now apply exists_insert_fresh|].
  split; [now apply is_symlink_insert_fresh|].
  rewrite resolve_insert_file; [exact Hres|now left].
Qed.

Lemma no_link_named_seeded (n on : string) (fs fs' : FS) :
  seeded on fs fs' → no_link_named n fs → no_link_named n fs'.
Proof.
  intros [->|(l0 & c & Hnone & ->)]; [auto|]. apply no_link_named_file.
Qed.

(** A seed that is done stays done when another file is seeded. *)
Lemma seed_done_seeded (tn on' : string) (od : option Path) (on : string)
  (fs fs' : FS) :
  simple_name tn → tn ≠ on → no_link_named tn fs →
  seeded on fs fs' →
  seed_done env self tn on' od fs → seed_done env self tn on' od fs'.
Proof.
  intros Hsimple Hne Hnl [->|(l0 & c & Hnone & ->)]; [auto|].
  pose proof (snoc_not_nil l0 on).
  intros [Hdest|Htemplate]; [left; now apply exists_insert_fresh|].
  right. apply absent_insert_file; [exact Hnone|exact Htemplate|].
  intros l Hl. unfold template_file_of in Hl.
  destruct (locate_last_name _ _ _ _ _ _ Hsimple Hnl Hl) as [l1 ->].
  now apply snoc_ne.
Qed.

(** The layout is still ready once the link is in place. *)
Lemma dirs_ready_linked (fs : FS) (l0 : loc) (nd : node) :
  no_link_named ".initialized" fs →
  leaf fs (l0 ++ [".neurolora"]) →
  dirs_ready env self fs →
  dirs_ready env self (<[l0 ++ [".neurolora"] := nd]> fs).
Proof.
  intros Hnl Hleaf [Hdir (l & Hl & Hn)]. split.
  - apply is_dir_update_leaf; [exact Hleaf|apply snoc_not_nil|exact Hdir].
  - destruct (locate_last_name _ _ _ _ _ _ simple_initialized Hnl Hl)
      as [l1 ->].
    assert (l1 ++ [".initialized"] ≠ l0 ++ [".neurolora"])
      by (apply snoc_ne; discriminate).
    exists (l1 ++ [".initialized"]). split.
    + apply locate_update_leaf; [exact Hleaf|exact Hl|assumption].
    + now rewrite node_at_insert_ne.
Qed.

End Seeding.

(** ** Idempotence of [setup] *)

(** Membership in a list of names given in full. *)
Ltac in_names :=
  unfold managed_names, file_names;
  repeat first [apply list_elem_of_here | apply list_elem_of_further].

Section Idempotence.

Context (env : Env) (self : StorageManager).

(** A successful [setup] of a fresh project leaves the filesystem settled. *)
Lemma setup_inv (w w1 : World) (u : ()) :
  neurolora_link self = project_root self // ".neurolora" →
  fresh env self (fsys w) →
  setup env immediate self w = (Ok u, w1) →
  settled env self (fsys w1).
Proof.
  intros Hlink [Hnames Hfree] Hrun. unfold setup in Hrun.
  (* directories *)
  bind_inv Hrun as u1 wa Edirs.
  apply create_directories_inv in Edirs
    as (fs1 & lM & G & HleafM & Hfsa & Hdirs); [|apply Hnames; in_names].
  assert (Hnamesa : no_managed_links (fsys wa)).
  { intros n Hn. rewrite Hfsa. apply no_link_named_file.
    eapply no_link_named_grows; eauto. }
  assert (Hfreea : not_a_link (cwd env) (fsys wa) (neurolora_link self)).
  { rewrite Hfsa. apply not_a_link_file; [exact HleafM|].
    eapply not_a_link_grows; eauto. }
  clear Hnames Hfree G HleafM Hfsa fs1 lM.
  (* the link *)
  bind_inv Hrun as u2 wb Elink.
  apply create_symlinks_inv in Elink
    as (lL & t & HleafL & Hfsb & Hlinked);
    [|exact Hlink|apply Hdirs|exact Hfreea].
  assert (Hdirsb : dirs_ready env self (fsys wb)).
  { rewrite Hfsb. apply dirs_ready_linked; auto. apply Hnamesa. in_names. }
  assert (Hnamesb : no_managed_links (fsys wb)).
  { intros n Hn. rewrite Hfsb. apply no_link_named_other; auto.
    intros ->. unfold file_names in Hn.
    rewrite !elem_of_cons, elem_of_nil in Hn.
    repeat destruct Hn as [Hn|Hn]; try discriminate. exact Hn. }
  clear Hdirs Hnamesa Hfreea HleafL Hfsb lL t.
  (* the seeds *)
  bind_inv Hrun as u3 wc Eignore. unfold _create_ignore_file in Eignore.
  apply create_template_file_inv in Eignore as [Sc Dignore];
    [|apply simple_names; in_names|apply Hnamesb; in_names].
  assert (Hnamesc : no_managed_links (fsys wc))
    by (intros n Hn; eapply no_link_named_seeded; eauto).
  bind_inv Hrun as u4 we Etasks. unfold _create_task_files in Etasks.
  bind_inv Etasks as u5 wd Etodo.
  apply create_template_file_inv in Etodo as [Sd Dtodo];
    [|apply simple_names; in_names|apply Hnamesc; in_names].
  assert (Hnamesd : no_managed_links (fsys wd))
    by (intros n Hn; eapply no_link_named_seeded; eauto).
  apply create_template_file_inv in Etasks as [Se Ddone];
    [|apply simple_names; in_names|apply Hnamesd; in_names].
  injection Hrun as _ <-. cbn [fsys].
  split; [|split; [|split; [|split]]].
  - eapply dirs_ready_seeded; [exact Se|].
    eapply dirs_ready_seeded; [exact Sd|].
    eapply dirs_ready_seeded; [exact Sc|]. exact Hdirsb.
  - eapply link_ready_seeded; [exact Se|].
    eapply link_ready_seeded; [exact Sd|].
    eapply link_ready_seeded; [exact Sc|]. exact Hlinked.
  - eapply seed_done_seeded; [| | |exact Se|].
    { apply simple_names. in_names. }
    { discriminate. }
    { apply Hnamesd. in_names. }
    eapply seed_done_seeded; [| | |exact Sd|exact Dignore].
    { apply simple_names. in_names. }
    { discriminate. }
    { apply Hnamesc. in_names. }
  - eapply seed_done_seeded; [| | |exact Se|exact Dtodo].
    { apply simple_names. in_names. }
    { discriminate. }
    { apply Hnamesd. in_names. }
  - exact Ddone.
Qed.

End Idempotence.


(** ** The properties at work on the concrete machine *)

(** Decides a closed equation by evaluating both sides. *)
Ltac by_compute :=
  apply (bool_decide_eq_true_1 _); vm_compute; reflexivity.

Lemma nolinks_no_managed_links (fs : FS) : nolinks fs → no_managed_links fs.
Proof.
  intros H n _ l t E. apply H in E. discriminate.
Qed.

Lemma fs_fresh_is_fresh : fresh env_tmp sm_app fs_fresh.
Proof.
  split.
  - apply nolinks_no_managed_links. apply (bool_decide_eq_true_1 _).
    vm_compute. reflexivity.
  - exists ["tmp"; "app"; ".neurolora"]. split; [vm_compute; reflexivity|].
    intros t. vm_compute. discriminate.
Qed.


(** Without the hypothesis of C1 the second run can fail: when the marker
    found in the documents directory is a symbolic link to the place of the
    project's link, the first [setup] succeeds and the second raises
    [IsADirectoryError]. *)
Example setup_twice_with_stale_marker :
  ¬ fresh env_tmp sm_app fs_stale_marker
  ∧ fst (setup env_tmp immediate sm_app (world0 fs_stale_marker)) = Ok ()
  ∧ fst (setup env_tmp immediate sm_app
           (snd (setup env_tmp immediate sm_app (world0 fs_stale_marker))))
    = Err (OSError EISDIR (docs_app // ".initialized")).
Proof.
  split.
  - intros [H _].
    apply (H ".initialized" ltac:(in_names)
             ["tmp"; "home"; ".mcp-docs"; "app"] (parse "/tmp/app/.neurolora")).
    vm_compute. reflexivity.
  - split; vm_compute; reflexivity.
Qed.

(** C3 on the concrete machine, with a backend that answers the immediate
    check and denies the ten that follow. *)
Lemma C3_retry_budget_witness :
  path_mkdir_parents env_tmp docs_app (world0 fs_fresh) = (Ok (), w_dirs_made)
  ∧ os_write (cwd env_tmp) (fsys w_dirs_made) (docs_app // ".initialized")
      (Text "initialized") = Ok fs_marked
  ∧ fst (_create_directories env_tmp (visible_until 1) sm_app (world0 fs_fresh))
    = Err (RuntimeError
             "Directory not visible after 10 retries: /tmp/home/.mcp-docs/app")
  ∧ nobs (snd (_create_directories env_tmp (visible_until 1) sm_app
                 (world0 fs_fresh))) = 11
  ∧ sleeps (trace (snd (_create_directories env_tmp (visible_until 1) sm_app
                          (world0 fs_fresh)))) = 10.
Proof.
  assert (H1 : path_mkdir_parents env_tmp docs_app (world0 fs_fresh)
               = (Ok (), w_dirs_made)) by by_compute.
  assert (H2 : os_write (cwd env_tmp) (fsys w_dirs_made)
                 (docs_app // ".initialized") (Text "initialized")
               = Ok fs_marked) by by_compute.
  split; [exact H1|]. split; [exact H2|].
  destruct (C3_retry_budget env_tmp sm_app (visible_until 1)
              (world0 fs_fresh) w_dirs_made fs_marked H1 H2) as [_ H].
  destruct H as (Hr & Hn & Hs & _).
  - vm_compute. reflexivity.
  - intros k b Hk. unfold visible_until. cbn [nobs world0] in Hk.
    destruct (Nat.ltb_spec k 1); [lia|reflexivity].
  - split; [exact Hr|]. split; [exact Hn|exact Hs].
Defined.

(** C5 on the concrete machine, with the user's notes in [TODO.md]. *)
Lemma C5_existing_destination_untouched_witness :
  fs_exists (cwd env_tmp) (fsys w_user_todo)
    (output_file_of sm_app "TODO.md" None) = true
  ∧ fst (_create_template_file env_tmp immediate sm_app "todo.template.md"
           "TODO.md" None w_user_todo) = Ok ()
  ∧ fsys (snd (_create_template_file env_tmp immediate sm_app
                 "todo.template.md" "TODO.md" None w_user_todo))
    = fsys w_user_todo.
Proof.
  assert (H : fs_exists (cwd env_tmp) (fsys w_user_todo)
                (output_file_of sm_app "TODO.md" None) = true)
    by (vm_compute; reflexivity).
  split; [exact H|].
  destruct (C5_existing_destination_untouched env_tmp sm_app "todo.template.md"
              "TODO.md" None w_user_todo H) as (Hr & Hfs & _).
  split; [exact Hr|exact Hfs].
Defined.

(** C7 on the machine without templates. *)
Lemma C7_missing_template_is_tolerated_witness :
  fs_exists (cwd env_bare) fs_bare (output_file_of sm_app "DONE.md" None)
  = false
  ∧ fs_exists (cwd env_bare) fs_bare
      (template_file_of env_bare "done.template.md") = false
  ∧ fst (_create_template_file env_bare immediate sm_app "done.template.md"
           "DONE.md" None (world0 fs_bare)) = Ok ()
  ∧ fsys (snd (_create_template_file env_bare immediate sm_app
                 "done.template.md" "DONE.md" None (world0 fs_bare)))
    = fs_bare.
Proof.
  assert (H1 : fs_exists (cwd env_bare) (fsys (world0 fs_bare))
                 (output_file_of sm_app "DONE.md" None) = false)
    by (vm_compute; reflexivity).
  assert (H2 : fs_exists (cwd env_bare) (fsys (world0 fs_bare))
                 (template_file_of env_bare "done.template.md") = false)
    by (vm_compute; reflexivity).
  split; [exact H1|]. split; [exact H2|].
  destruct (C7_missing_template_is_tolerated env_bare sm_app
              "done.template.md" "DONE.md" None (world0 fs_bare) H1 H2)
    as (Hr & Hfs & _).
  split; [exact Hr|exact Hfs].
Defined.


(** ** More on the template seeder *)

Section SeederOutcome.

Context (env : Env) (self : StorageManager).

(** Every run of [_create_template_file] either leaves the filesystem as it
    is, or succeeds having created one regular file, where nothing was,
    with the text of the template. *)
Lemma create_template_file_outcome
  (template_name output_name : string) (output_dir : option Path)
  (w : World) r (w' : World) :
  _create_template_file env immediate self template_name output_name
    output_dir w = (r, w') →
  fsys w' = fsys w
  ∨ (r = Ok ()
     ∧ ∃ q s,
         fsys w !! q = None ∧ q ≠ []
         ∧ locate true (cwd env) (fsys w)
             (output_file_of self output_name output_dir) = Ok q
         ∧ os_read (cwd env) (fsys w) (template_file_of env template_name)
           = Ok (Text s)
         ∧ fsys w' = <[q := File (Text s)]> (fsys w)).
Proof.
  unfold _create_template_file. cbv zeta.
  fold (output_file_of self output_name output_dir).
  fold (template_file_of env template_name).
  unfold try_except at 1, bind at 1, path_exists at 1, immediate at 1.
  destruct (fs_exists _ _ (output_file_of _ _ _)) eqn:Hdest; cbn [negb].
  { intros [= <- <-]. now left. }
  unfold bind at 1, path_exists at 1, immediate at 1. cbn [fsys].
  destruct (fs_exists _ _ (template_file_of _ _)) eqn:Htemplate; cycle 1.
  { intros [= <- <-]. now left. }
  unfold try_except at 1, bind at 1, read_text at 1, bind at 1, get_fs at 1.
  cbn [fsys]. unfold bind at 1, lift_os at 1.
  destruct (os_read _ _ _) as [[s|b]|e] eqn:Hread.
  - unfold ret at 1. unfold ret at 1.
    unfold bind at 1, write_text at 1, bind at 1, get_fs at 1. cbn [fsys].
    unfold bind at 1, lift_os at 1.
    destruct (os_write _ _ _ _) as [fs'|e] eqn:Hwrite.
    + unfold ret at 1, put_fs at 1. intros [= <- <-]. cbn [fsys].
      right. split; [reflexivity|].
      unfold os_write in Hwrite.
      destruct (locate true _ _ _) as [q|] eqn:Hq; [|discriminate].
      exists q, s.
      unfold fs_exists, stat in Hdest. rewrite Hq in Hdest.
      destruct (node_at (fsys w) q) as [nd|] eqn:Hnd; [discriminate|].
      apply node_at_None in Hnd as [Hq0 Hnone].
      injection Hwrite as <-. repeat split; auto.
    + unfold raise at 1. destruct e; intros [= <- <-]; now left.
  - unfold raise at 1. intros [= <- <-]. now left.
  - unfold raise at 1. destruct e; intros [= <- <-]; now left.
Qed.


(** X1: Seeding only ever adds: whatever a run of [_create_template_file] does,
    every entry of the filesystem is afterwards what it was before, and a
    run that raises leaves the filesystem exactly as it was. *)
Theorem seeding_only_adds
  (template_name output_name : string) (output_dir : option Path)
  (w : World) :
  let run :=
    _create_template_file env immediate self template_name output_name
      output_dir w in
  (∀ l nd, fsys w !! l = Some nd → fsys run.2 !! l = Some nd)
  ∧ (∀ e, run.1 = Err e → fsys run.2 = fsys w).
Proof.
  cbv zeta.
  destruct (_create_template_file _ _ _ _ _ _ w) as [r w'] eqn:E.
  apply create_template_file_outcome in E
    as [Hsame|[-> (q & s & Hq & _ & _ & _ & Hnew)]]; cbn [fst snd].
  - rewrite Hsame. split; auto.
  - rewrite Hnew. split; [|discriminate].
    intros l nd Hl. rewrite lookup_insert_ne; [exact Hl|congruence].
Qed.




End SeederOutcome.

(** ** What every run preserves *)

Section Always.

Context (R : World → World → Prop).
Hypothesis R_trans : ∀ w1 w2 w3, R w1 w2 → R w2 w3 → R w1 w3.

Lemma always_bind {A B} (m : M A) (f : A → M B) :
  always R m → (∀ a, always R (f a)) → always R (bind m f).
Proof.
  intros Hm Hf w r w'. unfold bind.
  destruct (m w) as [[a|e] w1] eqn:E; apply Hm in E.
  - intros H. apply Hf in H. eauto.
  - now intros [= <- <-].
Qed.

Lemma always_try_except {A} (m : M A) (h : exc → M A) :
  always R m → (∀ e, always R (h e)) → always R (try_except m h).
Proof.
  intros Hm Hh w r w'. unfold try_except.
  destruct (m w) as [[a|e] w1] eqn:E; apply Hm in E.
  - now intros [= <- <-].
  - intros H. apply Hh in H. eauto.
Qed.

Lemma always_if {A} (b : bool) (m1 m2 : M A) :
  always R m1 → always R m2 → always R (if b then m1 else m2).
Proof. now destruct b. Qed.

End Always.

(** *** Safe steps *)

Lemma kept_refl (fs : FS) : kept fs fs.
Proof. now intros l0 n nd _ H. Qed.

Lemma safe_step_refl (fs : FS) : safe_step fs fs.
Proof. intros H. split; [apply kept_refl|exact H]. Qed.


Lemma safe_step_grows (fs fs' : FS) : grows fs fs' → safe_step fs fs'.
Proof.
  intros G H. split; [|eapply no_link_named_grows; eauto].
  intros l0 n nd _ Hl. destruct (G (l0 ++ [n])) as [->|[E _]]; congruence.
Qed.

(** A regular file put where nothing or a regular file called
    [.initialized] was. *)
Lemma safe_step_marker (fs : FS) (l0 : loc) (c : content) :
  leaf fs (l0 ++ [".initialized"]) →
  safe_step fs (<[l0 ++ [".initialized"] := File c]> fs).
Proof.
  intros Hleaf H. split; [|now apply no_link_named_file].
  intros l1 n nd Hnd Hl.
  rewrite lookup_insert_ne; [exact Hl|].
  intros Heq. rewrite Heq in Hleaf.
  apply app_inj_tail in Heq as [_ <-].
  destruct Hleaf as [Hn|[c0 Hc]]; [congruence|].
  destruct Hnd as [->|[Hnd _]]; congruence.
Qed.

Lemma safe_step_fresh (fs : FS) (q : loc) (c : content) :
  fs !! q = None → safe_step fs (<[q := File c]> fs).
Proof.
  intros Hq H. split; [|now apply no_link_named_file].
  intros l1 n nd _ Hl. rewrite lookup_insert_ne; [exact Hl|congruence].
Qed.

(** A link called [.neurolora] put where nothing was. *)
Lemma safe_step_link (fs : FS) (l0 : loc) (t : Path) :
  fs !! (l0 ++ [".neurolora"]) = None →
  safe_step fs (<[l0 ++ [".neurolora"] := Link t]> fs).
Proof.
  intros Hq H. split; [|now apply no_link_named_other].
  intros l1 n nd _ Hl. rewrite lookup_insert_ne; [exact Hl|congruence].
Qed.

(** A file or link called [.neurolora] removed. *)
Lemma safe_step_unlink (fs : FS) (l0 : loc) (nd : node) :
  fs !! (l0 ++ [".neurolora"]) = Some nd → nd ≠ Dir →
  safe_step fs (delete (l0 ++ [".neurolora"]) fs).
Proof.
  intros Hq Hnd H. split.
  - intros l1 n nd1 Hnd1 Hl. rewrite lookup_delete_ne; [exact Hl|].
    intros Heq. rewrite Heq in Hq.
    apply app_inj_tail in Heq as [_ <-].
    destruct Hnd1 as [->|[_ Hne]]; congruence.
  - intros l t Hl. apply lookup_delete_Some in Hl as [_ Hl]. now apply H in Hl.
Qed.


Section Frames.

Context (env : Env).

Lemma framed_mkdir_parents (p : Path) : always framed (path_mkdir_parents env p).
Proof.
  intros w r w' E. unfold path_mkdir_parents in E.
  apply mkdir_parents_grows in E as [G _]. now apply safe_step_grows.
Qed.

Lemma framed_write_marker (p : Path) (s : string) :
  always framed (write_text env (p // ".initialized") s).
Proof.
  intros w r w' E H. destruct r as [u|e].
  - apply write_text_Ok_inv in E as (l & Hl & _ & Hleaf & ->).
    apply locate_last_name in Hl as [l0 ->];
      [|apply simple_initialized|exact H].
    now apply safe_step_marker.
  - unfold write_text, bind, get_fs, lift_os in E.
    destruct (os_write _ _ _ _); [discriminate|].
    injection E as _ <-. now apply safe_step_refl.
Qed.

Lemma simple_neurolora : simple_name ".neurolora".
Proof. apply simple_names. unfold managed_names. apply list_elem_of_here. Qed.

Lemma framed_unlink (p : Path) :
  always framed (path_unlink env (p // ".neurolora")).
Proof.
  intros w r w' E. destruct r as [u|e].
  - apply path_unlink_inv, os_unlink_ok in E
      as (l & nd & Hl & _ & Hnd & Hne & E).
    apply locate_last_name_nofollow in Hl as [l0 ->];
      [|apply simple_neurolora].
    unfold framed. rewrite E. eapply safe_step_unlink; eauto.
  - unfold path_unlink, bind, get_fs, lift_os in E.
    destruct (os_unlink _ _ _); [discriminate|].
    injection E as _ <-. apply safe_step_refl.
Qed.

Lemma framed_symlink_to (p t : Path) :
  always framed (path_symlink_to env (p // ".neurolora") t).
Proof.
  intros w r w' E. destruct r as [u|e].
  - apply path_symlink_to_inv, os_symlink_ok in E
      as (l & Hl & _ & Hnone & E).
    apply locate_last_name_nofollow in Hl as [l0 ->];
      [|apply simple_neurolora].
    unfold framed. rewrite E. now apply safe_step_link.
  - unfold path_symlink_to, bind, get_fs, lift_os in E.
    destruct (os_symlink _ _ _ _); [discriminate|].
    injection E as _ <-. apply safe_step_refl.
Qed.

Context (self : StorageManager).

Lemma framed_create_template_file (tn on : string) (od : option Path) :
  always framed (_create_template_file env immediate self tn on od).
Proof.
  intros w r w' E.
  apply create_template_file_outcome in E
    as [Hsame|[_ (q & s & Hq & _ & _ & _ & Hnew)]]; unfold framed.
  - rewrite Hsame. apply safe_step_refl.
  - rewrite Hnew. now apply safe_step_fresh.
Qed.

End Frames.

Create HintDb framed.

#[local] Hint Resolve framed_mkdir_parents framed_write_marker framed_unlink
  framed_symlink_to framed_create_template_file : framed.


Section SetupFrames.

Context (env : Env) (observe : nat → bool → bool).




End SetupFrames.



(** ** Polling on a filesystem that shows changes at once *)

Lemma no_sleep_trans (w1 w2 w3 : World) :
  no_sleep w1 w2 → no_sleep w2 w3 → no_sleep w1 w3.
Proof. unfold no_sleep. congruence. Qed.

(** A run that leaves the trace as it is does not sleep. *)
Lemma no_sleep_silent {A} (m : M A) :
  (∀ w r w', m w = (r, w') → trace w' = trace w) → always no_sleep m.
Proof. intros H w r w' E. apply H in E. unfold no_sleep. now rewrite E. Qed.

Lemma no_sleep_ret {A} (a : A) : always no_sleep (ret a).
Proof. now intros w r w' [= <- <-]. Qed.

Lemma no_sleep_raise {A} (e : exc) : always no_sleep (@raise A e).
Proof. now intros w r w' [= <- <-]. Qed.

Lemma no_sleep_log (lv : level) (msg : string) : always no_sleep (log lv msg).
Proof.
  intros w r w' [= <- <-]. unfold no_sleep. cbn [trace].
  rewrite sleeps_app. simpl. lia.
Qed.

Lemma no_sleep_sync : always no_sleep (emit Sync).
Proof.
  intros w r w' [= <- <-]. unfold no_sleep. cbn [trace].
  rewrite sleeps_app. simpl. lia.
Qed.

Lemma no_sleep_fsync (p : Path) : always no_sleep (emit (Fsync p)).
Proof.
  intros w r w' [= <- <-]. unfold no_sleep. cbn [trace].
  rewrite sleeps_app. simpl. lia.
Qed.

Section Sleepless.

Context (env : Env).

Lemma no_sleep_path_exists (observe : nat → bool → bool) (p : Path) :
  always no_sleep (path_exists env observe p).
Proof. now intros w r w' [= <- <-]. Qed.

Lemma no_sleep_path_is_symlink (p : Path) :
  always no_sleep (path_is_symlink env p).
Proof. now intros w r w' [= <- <-]. Qed.

Lemma no_sleep_path_resolve (p : Path) : always no_sleep (path_resolve env p).
Proof.
  intros w r w'. unfold path_resolve, bind, get_fs.
  destruct (fs_resolve _ _ _); now intros [= <- <-].
Qed.

Lemma no_sleep_path_unlink (p : Path) : always no_sleep (path_unlink env p).
Proof.
  intros w r w'. unfold path_unlink, bind, get_fs, lift_os.
  destruct (os_unlink _ _ _); now intros [= <- <-].
Qed.

Lemma no_sleep_path_symlink_to (p t : Path) :
  always no_sleep (path_symlink_to env p t).
Proof.
  intros w r w'. unfold path_symlink_to, bind, get_fs, lift_os.
  destruct (os_symlink _ _ _ _); now intros [= <- <-].
Qed.

Lemma no_sleep_write_text (p : Path) (s : string) :
  always no_sleep (write_text env p s).
Proof.
  intros w r w'. unfold write_text, bind, get_fs, lift_os.
  destruct (os_write _ _ _ _); now intros [= <- <-].
Qed.

Lemma no_sleep_read_text (p : Path) : always no_sleep (read_text env p).
Proof.
  intros w r w'. unfold read_text, bind, get_fs, lift_os.
  destruct (os_read _ _ _) as [[]|]; now intros [= <- <-].
Qed.

Lemma no_sleep_mkdir_parents (p : Path) :
  always no_sleep (path_mkdir_parents env p).
Proof.
  apply no_sleep_silent. intros w r w' E. unfold path_mkdir_parents in E.
  now apply mkdir_parents_world in E.
Qed.

End Sleepless.

Create HintDb no_sleep.

#[local] Hint Resolve no_sleep_ret no_sleep_raise no_sleep_log no_sleep_sync
  no_sleep_fsync no_sleep_path_exists no_sleep_path_is_symlink
  no_sleep_path_resolve no_sleep_path_unlink no_sleep_path_symlink_to
  no_sleep_write_text no_sleep_read_text no_sleep_mkdir_parents : no_sleep.

(** Proves that a composite run without a polling loop does not sleep. *)
Ltac solve_no_sleep :=
  repeat first
    [ solve [eauto with no_sleep]
    | lazymatch goal with
      | |- always _ (try_except _ _) =>
          apply (always_try_except no_sleep no_sleep_trans); [|intros ?]
      | |- always _ (if _ then _ else _) => apply (always_if no_sleep)
      | |- always _ (bind _ _) =>
          apply (always_bind no_sleep no_sleep_trans); [|intros ?]
      end ].

Section SetupSleepless.

Context (env : Env) (self : StorageManager).

Lemma no_sleep_create_template_file (tn on : string) (od : option Path)
  (observe : nat → bool → bool) :
  always no_sleep (_create_template_file env observe self tn on od).
Proof. unfold _create_template_file. cbv zeta. solve_no_sleep. Qed.

Lemma no_sleep_create_or_update_symlink (link target : Path) (n : string)
  (observe : nat → bool → bool) :
  always no_sleep (_create_or_update_symlink env observe link target n).
Proof. unfold _create_or_update_symlink. cbv zeta. solve_no_sleep. Qed.

(** A directory seen once is seen by the first poll. *)
Lemma no_sleep_poll_directory (p : Path) (e : exc) (n : nat)
  (orelse m : M unit) :
  always no_sleep m →
  always no_sleep
    (b ← path_exists env immediate p;
     (if negb b then raise e else ret ());;
     for_retries (S n) (path_exists env immediate p) orelse;;
     m).
Proof.
  intros Hm w r w'.
  unfold bind at 1, path_exists at 1, immediate at 1.
  destruct (fs_exists _ _ _) eqn:Hex; cbn [negb].
  - unfold bind at 1, ret at 1. unfold bind at 1. cbn [for_retries].
    unfold bind at 1, path_exists at 1, immediate at 1. cbn [fsys].
    rewrite Hex. unfold ret at 1. intros E. apply Hm in E. exact E.
  - unfold bind at 1, raise at 1. now intros [= <- <-].
Qed.

Lemma no_sleep_create_directories :
  always no_sleep (_create_directories env immediate self).
Proof.
  unfold _create_directories. cbv zeta.
  apply (always_try_except no_sleep no_sleep_trans);
    [|intros ?; solve_no_sleep].
  do 5 (apply (always_bind no_sleep no_sleep_trans);
        [solve [eauto with no_sleep]|intros ?]).
  apply no_sleep_poll_directory. apply no_sleep_sync.
Qed.

Lemma no_sleep_create_symlinks :
  always no_sleep (_create_symlinks env immediate self).
Proof.
  unfold _create_symlinks. cbv zeta.
  apply (always_try_except no_sleep no_sleep_trans);
    [|intros ?; solve_no_sleep].
  intros w r w'. unfold bind at 1.
  destruct (_create_or_update_symlink _ _ _ _ _ w) as [[u|e] w1] eqn:E.
  - pose proof (no_sleep_create_or_update_symlink _ _ _ _ _ _ _ E) as S1.
    apply reconcile_inv in E as (_ & _ & k & _ & _ & Hex & Hsym & _).
    unfold immediate in Hex.
    unfold bind at 1, emit at 1. unfold bind at 1. cbn [for_retries].
    unfold bind at 1. unfold bind at 1, path_exists at 1, immediate at 1.
    cbn [fsys]. rewrite Hex. rewrite path_is_symlink_run. cbn [fsys].
    rewrite Hsym. unfold ret at 1. unfold bind, emit, log.
    intros [= <- <-]. unfold no_sleep in *. cbn [trace].
    rewrite !sleeps_app, S1. simpl. lia.
  - intros [= <- <-].
    exact (no_sleep_create_or_update_symlink _ _ _ _ _ _ _ E).
Qed.

Lemma no_sleep_setup : always no_sleep (setup env immediate self).
Proof.
  unfold setup, _create_ignore_file, _create_task_files.
  apply (always_bind no_sleep no_sleep_trans);
    [apply no_sleep_create_directories|intros ?].
  apply (always_bind no_sleep no_sleep_trans);
    [apply no_sleep_create_symlinks|intros ?].
  apply (always_bind no_sleep no_sleep_trans);
    [apply no_sleep_create_template_file|intros ?].
  apply (always_bind no_sleep no_sleep_trans); [|intros ?; apply no_sleep_log].
  apply (always_bind no_sleep no_sleep_trans);
    [|intros ?]; apply no_sleep_create_template_file.
Qed.

(** X5: On a filesystem whose changes show at once the polling loops of
    [setup] never wait: whatever the state it starts from and whether it
    returns or raises, [setup] adds no sleep to the trace. *)
Theorem setup_never_waits (w : World) :
  sleeps (trace (setup env immediate self w).2) = sleeps (trace w).
Proof.
  destruct (setup env immediate self w) as [r w'] eqn:E. cbn [snd].
  now apply no_sleep_setup in E.
Qed.

End SetupSleepless.

(** ** What a successful run establishes, whatever the state it starts from *)

Section Postconditions.

Context (env : Env) (self : StorageManager).

(** X6: The directory initializer leaves a directory and a marker that reads
    [initialized], on any backend: the existence checks only decide
    whether it returns. *)
Theorem create_directories_establishes (observe : nat → bool → bool)
  (w w' : World) (u : ())
  (Hrun : _create_directories env observe self w = (Ok u, w')) :
  fs_is_dir (cwd env) (fsys w') (project_docs_dir self) = true
  ∧ os_read (cwd env) (fsys w') (project_docs_dir self // ".initialized")
    = Ok (Text "initialized")
  ∧ ∀ l, fsys w !! l = Some Dir → fsys w' !! l = Some Dir.
Proof.
  unfold _create_directories in Hrun.
  apply try_except_Ok_inv in Hrun; [|intros; apply log_then_raise_fails].
  cbv zeta in Hrun.
  bind_inv Hrun as u1 w1 Emk. unfold path_mkdir_parents in Emk. destruct u1.
  apply mkdir_parents_grows in Emk as [G Hdir]. specialize (Hdir eq_refl).
  bind_inv Hrun as u2 w2 El. injection El as _ <-.
  bind_inv Hrun as u3 w3 Ew.
  apply write_text_Ok_inv in Ew as (l & Hloc & Hl0 & Hleaf & Hfs3).
  cbn [fsys] in *.
  assert (Hfs : fsys w' = fsys w3).
  { revert Hrun. generalize w3 (Ok u : result exc ()) w'.
    change (reads (emit (Fsync (project_docs_dir self // ".initialized"));;
      emit Sync;;
      b ← path_exists env observe (project_docs_dir self);
      (if negb b
       then raise (RuntimeError ("Failed to create directory: "
                                 +:+ str_path (project_docs_dir self)))
       else ret ());;
      for_retries 10 (path_exists env observe (project_docs_dir self))
        (raise (RuntimeError ("Directory not visible after "
                              +:+ pretty 10 +:+ " retries: "
                              +:+ str_path (project_docs_dir self))));;
      emit Sync)).
    solve_reads. }
  rewrite Hfs, Hfs3. split; [|split].
  - apply is_dir_update_leaf; auto.
  - unfold os_read, stat. rewrite locate_after_write by assumption.
    now rewrite node_at_insert_eq.
  - intros l1 Hl1.
    assert (Hl1' : fsys w1 !! l1 = Some Dir)
      by (destruct (G l1) as [->|[E _]]; congruence).
    rewrite lookup_insert_ne; [exact Hl1'|].
    intros <-. destruct Hleaf as [Hn|[c Hc]]; congruence.
Qed.

(** A regular file created where nothing was leaves the link as it is. *)
Lemma link_ready_fresh_file (fs : FS) (q : loc) (c : content) :
  fs !! q = None → q ≠ [] →
  link_ready env self fs → link_ready env self (<[q := File c]> fs).
Proof.
  intros Hq Hq0 (Hex & Hsym & Hres). repeat split.
  - now apply exists_insert_fresh.
  - now apply is_symlink_insert_fresh.
  - rewrite resolve_insert_file; [exact Hres|now left].
Qed.

Lemma link_ready_seeding (tn on : string) (od : option Path)
  (w : World) r (w' : World) :
  _create_template_file env immediate self tn on od w = (r, w') →
  link_ready env self (fsys w) → link_ready env self (fsys w').
Proof.
  intros E H.
  apply create_template_file_outcome in E
    as [->|[_ (q & s & Hq & Hq0 & _ & _ & ->)]]; [exact H|].
  now apply link_ready_fresh_file.
Qed.

Lemma create_symlinks_link_ready (w w' : World) (u : ()) :
  _create_symlinks env immediate self w = (Ok u, w') →
  link_ready env self (fsys w').
Proof.
  intros Hrun. unfold _create_symlinks in Hrun.
  apply try_except_Ok_inv in Hrun; [|intros; apply log_then_raise_fails].
  cbv zeta in Hrun.
  bind_inv Hrun as u1 w1 Erec.
  assert (Hfs : fsys w' = fsys w1).
  { revert Hrun. generalize w1 (Ok u : result exc ()) w'.
    change (reads (emit Sync;;
      for_retries 10
        (b ← path_exists env immediate (neurolora_link self);
         if b then path_is_symlink env (neurolora_link self) else ret false)
        (raise (RuntimeError ("Symlink not visible after "
                              +:+ pretty 10 +:+ " retries: "
                              +:+ str_path (neurolora_link self))));;
      emit Sync;;
      log INFO ("Symlink created and verified: "
                +:+ str_path (neurolora_link self)))).
    solve_reads. }
  apply reconcile_inv in Erec as (_ & _ & k & _ & _ & Hex & Hsym & Hres & _).
  rewrite Hfs. repeat split; assumption.
Qed.

(** X7: When [setup] returns, from whatever state, the project's link exists,
    is a symbolic link, and resolves to the documents directory: the files
    seeded after the link is made do not disturb it. *)
Theorem setup_establishes_link (w w' : World) (u : ())
  (Hrun : setup env immediate self w = (Ok u, w')) :
  fs_exists (cwd env) (fsys w') (neurolora_link self) = true
  ∧ fs_is_symlink (cwd env) (fsys w') (neurolora_link self) = true
  ∧ fs_resolve (cwd env) (fsys w') (neurolora_link self)
    = Ok (project_docs_dir self).
Proof.
  unfold setup, _create_ignore_file, _create_task_files in Hrun.
  bind_inv Hrun as u1 w1 Edirs.
  bind_inv Hrun as u2 w2 Elink. apply create_symlinks_link_ready in Elink.
  bind_inv Hrun as u3 w3 Eignore.
  eapply link_ready_seeding in Elink; [|exact Eignore].
  bind_inv Hrun as u4 w4 Etasks.
  bind_inv Etasks as u5 w5 Etodo.
  eapply link_ready_seeding in Elink; [|exact Etodo].
  eapply link_ready_seeding in Elink; [|exact Etasks].
  injection Hrun as _ <-. exact Elink.
Qed.

(** X8: A settled state is a fixed point of [setup], however it was reached:
    there [setup] returns and leaves the filesystem as it is. *)
Theorem settled_is_stable (w : World)
  (Hsettled : settled env self (fsys w)) :
  ∃ w', setup env immediate self w = (Ok (), w') ∧ fsys w' = fsys w.
Proof. now apply (setup_settled env self (fsys w) Hsettled w). Qed.

End Postconditions.

(** ** Polling that recovers *)

Section Polling.

Context (env : Env).

(** A poll whose [j] next observations are negative and whose next one is
    positive sleeps [j] times and goes on without running its [else]
    clause. *)
Lemma for_retries_recovers (observe : nat → bool → bool) (p : Path)
  (orelse : M unit) (j : nat) : ∀ (n : nat) (w : World),
  j < n →
  (∀ k, nobs w ≤ k < nobs w + j →
        observe k (fs_exists (cwd env) (fsys w) p) = false) →
  observe (nobs w + j) (fs_exists (cwd env) (fsys w) p) = true →
  for_retries n (path_exists env observe p) orelse w
  = (Ok (), {| fsys := fsys w; nobs := nobs w + j + 1;
               trace := trace w ++ repeat (Sleep 100) j |}).
Proof.
  induction j as [|j IH]; intros n w Hn Hno Hyes;
    (destruct n as [|n]; [lia|]); simpl.
  - unfold bind at 1, path_exists at 1.
    rewrite Nat.add_0_r in Hyes. rewrite Hyes. unfold ret.
    rewrite app_nil_r. do 2 f_equal. lia.
  - unfold bind at 1, path_exists at 1. rewrite Hno by lia.
    unfold bind at 1, emit at 1. rewrite IH; cbn [fsys nobs trace].
    + do 2 f_equal; [lia|]. now rewrite <- app_assoc.
    + lia.
    + intros k Hk. apply Hno. lia.
    + rewrite <- Hyes. f_equal. lia.
Qed.

Context (self : StorageManager).

(** X9: The poll of [_create_directories] tolerates a directory that goes
    unseen for a while: when the immediate check sees the directory, the
    [j] checks that follow do not, for some [j] below ten, and the next one
    does, the call returns after [j] sleeps of 100 ms with the directory and
    the marker in place. *)
Theorem create_directories_waits_until_visible
  (observe : nat → bool → bool) (w w1 : World) (fs2 : FS) (j : nat)
  (Hmkdir : path_mkdir_parents env (project_docs_dir self) w = (Ok (), w1))
  (Hmarker : os_write (cwd env) (fsys w1)
               (project_docs_dir self // ".initialized") (Text "initialized")
             = Ok fs2)
  (Hfirst : observe (nobs w)
              (fs_exists (cwd env) fs2 (project_docs_dir self)) = true)
  (Hj : j < 10)
  (Hhidden : ∀ k, nobs w < k ≤ nobs w + j →
     observe k (fs_exists (cwd env) fs2 (project_docs_dir self)) = false)
  (Hseen : observe (nobs w + j + 1)
             (fs_exists (cwd env) fs2 (project_docs_dir self)) = true) :
  let r := _create_directories env observe self w in
  fst r = Ok ()
  ∧ fsys (snd r) = fs2
  ∧ nobs (snd r) = nobs w + j + 2
  ∧ sleeps (trace (snd r)) = sleeps (trace w) + j
  ∧ slept (trace (snd r)) = slept (trace w) + 100 * j.
Proof.
  intros r. subst r.
  destruct (mkdir_parents_world env _ _ _ _ _ Hmkdir) as [Hn Ht].
  destruct (_create_directories env observe self w) as [r w'] eqn:E.
  unfold _create_directories, try_except in E.
  unfold bind at 1 in E. rewrite Hmkdir in E.
  unfold bind at 1, log at 1, emit at 1 in E.
  unfold bind at 1, write_text at 1, bind at 1, get_fs at 1 in E.
  cbn [fsys] in E. rewrite Hmarker in E.
  unfold lift_os, ret at 1, put_fs at 1 in E.
  unfold bind at 1, emit at 1 in E. unfold bind at 1, emit at 1 in E.
  unfold bind at 1, bind at 1, path_exists at 1 in E.
  cbn [fsys nobs trace] in E. rewrite Hn, Ht in E.
  rewrite Hfirst in E. cbn [negb ret] in E.
  unfold bind at 1, ret at 1 in E. unfold bind at 1 in E.
  rewrite (for_retries_recovers _ _ _ j) in E; cbn [fsys nobs trace].
  - cbn in E. injection E as <- <-. cbn.
    rewrite !sleeps_app, !slept_app, sleeps_repeat, slept_repeat. cbn.
    repeat split; lia.
  - exact Hj.
  - intros k Hk. apply Hhidden. lia.
  - rewrite <- Hseen. f_equal. lia.
Qed.

End Polling.

(** ** The link, made and followed *)

Lemma plain_inv (c : string) :
  plain c = true → skipped c = false ∧ bool_decide (c = dotdot) = false.
Proof.
  unfold plain. intros [H1 H2]%andb_true_iff.
  now apply negb_true_iff in H1, H2.
Qed.

(** [normpath] leaves a path made of entry names as it is. *)
Lemma normpath_abs_plain (comps : list string) :
  Forall (λ c, plain c = true) comps → normpath_abs comps = comps.
Proof.
  unfold normpath_abs. intros H.
  enough (G : ∀ acc,
    fold_left
      (λ acc c,
         if bool_decide (c = dotdot) then removelast acc
         else if skipped c then acc else acc ++ [c]) comps acc
    = acc ++ comps) by apply (G []).
  induction H as [|c comps Hc _ IH]; intros acc; simpl.
  - now rewrite app_nil_r.
  - apply plain_inv in Hc as [-> ->]. rewrite IH. now rewrite <- app_assoc.
Qed.

Lemma common_len_le (a b : list string) :
  (common_len a b ≤ length a)%nat.
Proof.
  revert b. induction a as [|x a IH]; intros [|y b]; simpl; try lia.
  destruct (bool_decide (x = y)); [specialize (IH b)|]; lia.
Qed.

Lemma take_common_len (a b : list string) :
  take (common_len a b) a = take (common_len a b) b.
Proof.
  revert b. induction a as [|x a IH]; intros [|y b]; simpl; try reflexivity.
  destruct (bool_decide (x = y)) eqn:E; [|reflexivity].
  apply bool_decide_eq_true in E as ->. simpl. now rewrite IH.
Qed.

Section WalkDirs.

Context (strict follow : bool) (fs : FS).

(** Each [".."] steps to the parent. *)
Lemma walk_dotdots (fuel : nat) (rest : list string) :
  ∀ (k : nat) (cur : loc),
    walk strict follow fuel fs cur (repeat dotdot k ++ rest)
    = walk strict follow fuel fs (take (length cur - k) cur) rest.
Proof.
  induction k as [|k IH]; intros cur; simpl.
  - now rewrite Nat.sub_0_r, firstn_all.
  - rewrite walk_cons. change (skipped dotdot) with false. cbn match.
    rewrite bool_decide_eq_true_2 by reflexivity. rewrite IH.
    rewrite removelast_firstn_len, length_take, take_take. do 2 f_equal. lia.
Qed.

(** Directories are walked through. *)
Lemma walk_through_dirs (fuel : nat) (rest : list string) :
  ∀ (comps : list string) (cur : loc),
    Forall (λ c, plain c = true) comps →
    (∀ k, 0 < k ≤ length comps → fs !! (cur ++ take k comps) = Some Dir) →
    walk strict follow fuel fs cur (comps ++ rest)
    = walk strict follow fuel fs (cur ++ comps) rest.
Proof.
  induction comps as [|c comps IH]; intros cur Hplain Hdirs; simpl.
  - now rewrite app_nil_r.
  - apply Forall_cons in Hplain as [Hc Hplain].
    apply plain_inv in Hc as [Hs Hd].
    rewrite walk_cons, Hs, Hd.
    pose proof (Hdirs 1 ltac:(simpl; lia)) as H1. simpl in H1. rewrite take_0 in H1.
    rewrite H1.
    rewrite IH; [now rewrite <- app_assoc|exact Hplain|].
    intros k Hk. rewrite <- app_assoc. apply (Hdirs (S k)). simpl. lia.
Qed.

End WalkDirs.

Lemma directory_at_walk (strict follow : bool) (fs : FS) (fuel : nat)
  (l : loc) (rest : list string) :
  Forall (λ c, plain c = true) l → directory_at fs l →
  walk strict follow fuel fs [] (l ++ rest)
  = walk strict follow fuel fs l rest.
Proof.
  intros Hplain Hdir. now apply (walk_through_dirs strict follow fs fuel rest l []).
Qed.

Lemma directory_at_node (fs : FS) (l : loc) :
  directory_at fs l → node_at fs l = Some Dir.
Proof.
  intros H. destruct l as [|c l]; [reflexivity|].
  cbn [node_at]. rewrite <- (firstn_all (c :: l)). apply H. simpl. lia.
Qed.

(** Changing an entry that is not a directory leaves the directories where
    they are. *)
Lemma directory_at_insert (fs : FS) (q : loc) (nd : node) (l : loc) :
  fs !! q ≠ Some Dir → directory_at fs l → directory_at (<[q := nd]> fs) l.
Proof.
  intros Hq H k Hk. rewrite lookup_insert_ne; [now apply H|].
  intros ->. now apply Hq, H.
Qed.

Lemma directory_at_delete (fs : FS) (q : loc) (l : loc) :
  fs !! q ≠ Some Dir → directory_at fs l → directory_at (delete q fs) l.
Proof.
  intros Hq H k Hk. rewrite lookup_delete_ne; [now apply H|].
  intros ->. now apply Hq, H.
Qed.

(** *** Runs that return, from one filesystem to another *)

Lemma leads_returns {A} (m : M A) (fs : FS) (a : A) :
  returns m fs a → leads m fs a fs.
Proof. intros H. exact H. Qed.

Lemma leads_bind {A B} (m : M A) (f : A → M B) (fs fs1 fs2 : FS)
  (a : A) (b : B) :
  leads m fs a fs1 → leads (f a) fs1 b fs2 → leads (bind m f) fs b fs2.
Proof.
  intros Hm Hf w Hw. destruct (Hm w Hw) as (w1 & E1 & Hw1).
  destruct (Hf w1 Hw1) as (w2 & E2 & Hw2).
  exists w2. unfold bind. now rewrite E1.
Qed.

Lemma leads_try_except {A} (m : M A) (h : exc → M A) (fs fs' : FS) (a : A) :
  leads m fs a fs' → leads (try_except m h) fs a fs'.
Proof.
  intros Hm w Hw. destruct (Hm w Hw) as (w1 & E1 & Hw1).
  exists w1. unfold try_except. now rewrite E1.
Qed.

Section LeadsPaths.

Context (env : Env).

Lemma leads_unlink (p : Path) (fs fs' : FS) :
  os_unlink (cwd env) fs p = Ok fs' → leads (path_unlink env p) fs () fs'.
Proof.
  intros H w <-. eexists. unfold path_unlink, bind, get_fs, lift_os.
  rewrite H. split; reflexivity.
Qed.

Lemma leads_symlink_to (p t : Path) (fs fs' : FS) :
  os_symlink (cwd env) fs t p = Ok fs' →
  leads (path_symlink_to env p t) fs () fs'.
Proof.
  intros H w <-. eexists. unfold path_symlink_to, bind, get_fs, lift_os.
  rewrite H. split; reflexivity.
Qed.


Lemma leads_read_text (p : Path) (s : string) (fs : FS) :
  os_read (cwd env) fs p = Ok (Text s) → leads (read_text env p) fs s fs.
Proof.
  intros H w <-. eexists. unfold read_text, bind, get_fs, lift_os.
  rewrite H. split; reflexivity.
Qed.

Lemma leads_path_exists (p : Path) (fs : FS) (b : bool) :
  fs_exists (cwd env) fs p = b → leads (path_exists env immediate p) fs b fs.
Proof. intros <-. apply returns_path_exists. Qed.

Lemma leads_path_is_symlink (p : Path) (fs : FS) (b : bool) :
  fs_is_symlink (cwd env) fs p = b → leads (path_is_symlink env p) fs b fs.
Proof. intros <-. apply returns_path_is_symlink. Qed.

End LeadsPaths.

(** One step of a run. *)
Ltac leads_step tac :=
  eapply leads_bind; [tac|]; cbv beta iota.

(** *** The link between two directories *)

Section LinkFacts.

Context (env : Env) (lr lt : loc) (n : string).
Hypothesis Hlr : Forall (λ c, plain c = true) lr.
Hypothesis Hn : plain n = true.
Hypothesis Hlt : Forall (λ c, plain c = true) lt.

Local Abbreviation link := (mkPath true (lr ++ [n])).
Local Abbreviation target := (mkPath true lt).
Local Abbreviation rel :=
  (mkPath false (repeat dotdot (length lr - common_len lr lt)
                 ++ drop (common_len lr lt) lt)).

(** The path [os.path.relpath] gives from the directory of the link to the
    target: up to the deepest common ancestor, then down. *)
Lemma relpath_link : relpath (cwd env) target (parent link) = rel.
Proof.
  unfold relpath, abspath, parent. cbn [absolute parts].
  rewrite removelast_last.
  now rewrite !normpath_abs_plain by assumption.
Qed.

(** Followed from the directory of the link, that path leads to the
    target. *)
Lemma walk_rel_then (strict follow : bool) (fs : FS) (fuel : nat)
  (rest : list string) :
  directory_at fs lt →
  walk strict follow fuel fs lr (parts rel ++ rest)
  = walk strict follow fuel fs lt rest.
Proof.
  intros Hdir. cbn [parts]. rewrite <- app_assoc, walk_dotdots.
  pose proof (common_len_le lr lt) as Hle.
  replace (length lr - (length lr - common_len lr lt))
    with (common_len lr lt) by lia.
  rewrite take_common_len.
  rewrite walk_through_dirs.
  - now rewrite take_drop.
  - now apply Forall_drop.
  - intros k Hk. rewrite take_take_drop. apply Hdir.
    rewrite length_drop in Hk. lia.
Qed.

Lemma walk_rel (strict follow : bool) (fs : FS) (fuel : nat) :
  directory_at fs lt →
  walk strict follow fuel fs lr (parts rel) = Ok lt.
Proof.
  intros Hdir. rewrite <- (app_nil_r (parts rel)).
  rewrite walk_rel_then by exact Hdir. apply walk_nil.
Qed.

Lemma locate_link_leaf (follow : bool) (fs : FS) :
  directory_at fs lr → leaf fs (lr ++ [n]) →
  locate follow (cwd env) fs link = Ok (lr ++ [n]).
Proof.
  intros Hdir Hleaf. unfold locate, start. cbn [absolute parts].
  rewrite directory_at_walk by assumption.
  apply plain_inv in Hn as [Hs Hd]. rewrite walk_cons, Hs, Hd.
  rewrite bool_decide_eq_true_2 by reflexivity.
  rewrite andb_false_r, walk_nil.
  now destruct Hleaf as [->|[c ->]].
Qed.

Section Linked.

Context (fs : FS).
Hypothesis Hroot : directory_at fs lr.
Hypothesis Htarget : directory_at fs lt.
Hypothesis Hfree : fs !! (lr ++ [n]) ≠ Some Dir.

Local Abbreviation fs' := (<[lr ++ [n] := Link rel]> fs).

Lemma locate_link_nofollow : locate false (cwd env) fs' link = Ok (lr ++ [n]).
Proof.
  unfold locate, start. cbn [absolute parts].
  rewrite directory_at_walk by (auto using directory_at_insert).
  apply plain_inv in Hn as [Hs Hd]. rewrite walk_cons, Hs, Hd.
  rewrite lookup_insert_eq.
  now rewrite bool_decide_eq_true_2 by reflexivity.
Qed.

Lemma walk_link_follow (strict : bool) :
  walk strict true MAXSYMLINKS fs' [] (lr ++ [n]) = Ok lt.
Proof.
  rewrite directory_at_walk by (auto using directory_at_insert).
  apply plain_inv in Hn as [Hs Hd]. rewrite walk_cons, Hs, Hd.
  rewrite lookup_insert_eq. cbn [negb]. rewrite andb_false_r.
  unfold MAXSYMLINKS. cbn [absolute]. rewrite app_nil_r.
  apply walk_rel. auto using directory_at_insert.
Qed.

Lemma stat_link_follow : stat true (cwd env) fs' link = Ok Dir.
Proof.
  unfold stat, locate, start. cbn [absolute parts].
  rewrite walk_link_follow.
  rewrite directory_at_node; auto using directory_at_insert.
Qed.

Lemma link_exists : fs_exists (cwd env) fs' link = true.
Proof. unfold fs_exists. now rewrite stat_link_follow. Qed.

Lemma link_is_dir : fs_is_dir (cwd env) fs' link = true.
Proof. unfold fs_is_dir. now rewrite stat_link_follow. Qed.

Lemma link_is_symlink : fs_is_symlink (cwd env) fs' link = true.
Proof.
  unfold fs_is_symlink, stat. rewrite locate_link_nofollow.
  destruct lr; cbn [node_at app]; now rewrite lookup_insert_eq.
Qed.

Lemma link_resolves : fs_resolve (cwd env) fs' link = Ok target.
Proof.
  unfold fs_resolve, start. cbn [absolute parts].
  now rewrite walk_link_follow.
Qed.

(** A name looked up through the link is found in the target
    directory. *)
Lemma locate_through_link (f : string) :
  plain f = true → no_link_at fs' (lt ++ [f]) →
  locate true (cwd env) fs' (mkPath true ((lr ++ [n]) ++ [f]))
  = Ok (lt ++ [f]).
Proof.
  intros Hf Hno. unfold locate, start. cbn [absolute parts].
  rewrite <- app_assoc.
  rewrite directory_at_walk by (auto using directory_at_insert).
  apply plain_inv in Hn as [Hs Hd]. cbn [app]. rewrite walk_cons, Hs, Hd.
  rewrite lookup_insert_eq.
  rewrite bool_decide_eq_false_2 by discriminate. cbn [andb].
  unfold MAXSYMLINKS. cbn [absolute].
  rewrite walk_rel_then by (auto using directory_at_insert).
  apply plain_inv in Hf as [Hsf Hdf]. rewrite walk_cons, Hsf, Hdf.
  rewrite bool_decide_eq_true_2 by reflexivity.
  rewrite andb_false_r, walk_nil.
  destruct (fs' !! (lt ++ [f])) as [[| |t]|] eqn:E; try reflexivity.
  now destruct (Hno t).
Qed.

End Linked.

End LinkFacts.

Section ReconcileRuns.

Context (env : Env).

Lemma directory_is_dir (fs : FS) (l : loc) :
  Forall (λ c, plain c = true) l → directory_at fs l →
  fs_is_dir (cwd env) fs (mkPath true l) = true.
Proof.
  intros Hplain Hdir. unfold fs_is_dir, stat, locate, start.
  cbn [absolute parts]. rewrite <- (app_nil_r l) at 1.
  rewrite directory_at_walk, walk_nil by assumption.
  now rewrite directory_at_node.
Qed.

Lemma node_at_snoc (fs : FS) (l0 : loc) (n : string) :
  node_at fs (l0 ++ [n]) = fs !! (l0 ++ [n]).
Proof. now destruct l0. Qed.

(** The verification that ends [_create_or_update_symlink], on a
    filesystem where the link is in place. *)
Lemma leads_verification (link target : Path) (fs : FS) :
  fs_exists (cwd env) fs link = true →
  fs_is_symlink (cwd env) fs link = true →
  fs_resolve (cwd env) fs link = Ok target →
  leads
    (b ← path_exists env immediate link;
     (if negb b then
        raise (RuntimeError ("Symlink was not created: " +:+ str_path link))
      else ret ());;
     s ← path_is_symlink env link;
     (if negb s then
        raise (RuntimeError ("Path exists but is not a symlink: "
                             +:+ str_path link))
      else ret ());;
     resolved ← path_resolve env link;
     (if bool_decide (resolved ≠ target) then
        raise (RuntimeError ("Symlink points to wrong target: "
                             +:+ str_path resolved +:+ " != "
                             +:+ str_path target))
      else ret ());;
     log DEBUG "Symlink verified successfully") fs () fs.
Proof.
  intros Hex Hsym Hres.
  leads_step ltac:(apply leads_path_exists, Hex).
  cbn [negb]. leads_step ltac:(apply returns_ret).
  leads_step ltac:(apply leads_path_is_symlink, Hsym).
  cbn [negb]. leads_step ltac:(apply returns_ret).
  leads_step ltac:(apply returns_path_resolve, Hres).
  rewrite bool_decide_eq_false_2 by (intros H; now apply H).
  leads_step ltac:(apply returns_ret).
  apply returns_log.
Qed.

(** [_create_or_update_symlink] between two directories, with nothing or a
    regular file where the link goes. *)
Lemma leads_reconcile (lr lt : loc) (n link_name : string) (fs : FS) :
  Forall (λ c, plain c = true) lr → plain n = true →
  Forall (λ c, plain c = true) lt →
  directory_at fs lr → directory_at fs lt → leaf fs (lr ++ [n]) →
  leads
    (_create_or_update_symlink env immediate (mkPath true (lr ++ [n]))
       (mkPath true lt) link_name)
    fs ()
    (<[lr ++ [n] := Link (relpath (cwd env) (mkPath true lt)
                            (parent (mkPath true (lr ++ [n]))))]> fs).
Proof.
  intros Hlr Hn Hlt Hroot Htarget Hfree.
  assert (Hnotdir : fs !! (lr ++ [n]) ≠ Some Dir)
    by (destruct Hfree as [H|[c H]]; congruence).
  pose proof (relpath_link env lr lt n Hlr Hlt) as Hrel.
  pose proof (link_exists env lr lt n Hlr Hn Hlt fs Hroot Htarget Hnotdir)
    as Hex.
  pose proof (link_is_symlink env lr lt n Hlr Hn fs Hroot Hnotdir) as Hsym.
  pose proof (link_resolves env lr lt n Hlr Hn Hlt fs Hroot Htarget Hnotdir)
    as Hres.
  rewrite <- Hrel in Hex, Hsym, Hres.
  unfold _create_or_update_symlink. cbv zeta.
  leads_step ltac:(apply returns_log).
  apply leads_try_except.
  leads_step ltac:(apply returns_mkdir_existing, directory_is_dir; assumption).
  destruct Hfree as [Hnone|[c Hfile]].
  - (* nothing there: the link is created *)
    leads_step ltac:(apply leads_path_exists with (b := false)).
    { unfold fs_exists, stat.
      rewrite (locate_link_leaf env lr n Hlr Hn true fs Hroot) by now left.
      now rewrite node_at_snoc, Hnone. }
    leads_step ltac:(
      leads_step ltac:(apply returns_log);
      leads_step ltac:(apply leads_symlink_to);
      [|apply returns_log]).
    { unfold os_symlink.
      rewrite (locate_link_leaf env lr n Hlr Hn false fs Hroot) by now left.
      now rewrite node_at_snoc, Hnone. }
    now apply leads_verification.
  - (* a regular file there: it is removed and the link created *)
    leads_step ltac:(apply leads_path_exists with (b := true)).
    { unfold fs_exists, stat.
      rewrite (locate_link_leaf env lr n Hlr Hn true fs Hroot)
        by (right; eauto).
      now rewrite node_at_snoc, Hfile. }
    leads_step ltac:(
      leads_step ltac:(apply returns_log);
      leads_step ltac:(apply leads_path_is_symlink with (b := false));
      [|cbn [negb];
        leads_step ltac:(apply returns_log);
        leads_step ltac:(apply leads_unlink);
        [|apply leads_symlink_to]]).
    { unfold fs_is_symlink, stat.
      rewrite (locate_link_leaf env lr n Hlr Hn false fs Hroot)
        by (right; eauto).
      now rewrite node_at_snoc, Hfile. }
    { unfold os_unlink.
      rewrite (locate_link_leaf env lr n Hlr Hn false fs Hroot)
        by (right; eauto).
      rewrite node_at_snoc, Hfile. reflexivity. }
    { unfold os_symlink.
      rewrite (locate_link_leaf env lr n Hlr Hn false (delete (lr ++ [n]) fs))
        by (auto using directory_at_delete; left; apply lookup_delete_eq).
      rewrite node_at_snoc, lookup_delete_eq.
      now rewrite insert_delete_eq. }
    now apply leads_verification.
Qed.

(** X10: Between two existing directories whose paths are canonical, with
    nothing or a regular file where the link goes,
    [_create_or_update_symlink] returns: it leaves there, and changes
    nothing else, a link holding the relative path from the directory of
    the link to the target; the link, when followed, is the target
    directory, and a name looked up through the link is found in the
    target directory. *)
Theorem reconcile_links_the_directories
  (lr lt : loc) (n link_name : string) (w : World)
  (Hlr : Forall (λ c, plain c = true) lr)
  (Hn : plain n = true)
  (Hlt : Forall (λ c, plain c = true) lt)
  (Hroot : directory_at (fsys w) lr)
  (Htarget : directory_at (fsys w) lt)
  (Hfree : leaf (fsys w) (lr ++ [n])) :
  let link := mkPath true (lr ++ [n]) in
  let target := mkPath true lt in
  ∃ w',
    _create_or_update_symlink env immediate link target link_name w
    = (Ok (), w')
    ∧ fsys w'
      = <[lr ++ [n] := Link (relpath (cwd env) target (parent link))]> (fsys w)
    ∧ fs_is_symlink (cwd env) (fsys w') link = true
    ∧ fs_is_dir (cwd env) (fsys w') link = true
    ∧ fs_resolve (cwd env) (fsys w') link = Ok target
    ∧ ∀ f, simple_name f → no_link_at (fsys w') (lt ++ [f]) →
           locate true (cwd env) (fsys w') (link // f) = Ok (lt ++ [f]).
Proof.
  cbv zeta.
  assert (Hnotdir : fsys w !! (lr ++ [n]) ≠ Some Dir)
    by (destruct Hfree as [H|[c H]]; congruence).
  pose proof (relpath_link env lr lt n Hlr Hlt) as Hrel.
  destruct (leads_reconcile lr lt n link_name (fsys w) Hlr Hn Hlt Hroot
              Htarget Hfree w eq_refl) as (w' & Hrun & Hfs).
  exists w'. split; [exact Hrun|]. split; [exact Hfs|].
  rewrite Hfs, Hrel.
  split; [now apply link_is_symlink|]. split; [now apply link_is_dir|].
  split; [now apply link_resolves|].
  intros f Hf Hno. rewrite (joinpath_simple _ _ Hf). cbn [absolute parts].
  apply locate_through_link; auto. now destruct Hf.
Qed.

End ReconcileRuns.

(** ** The target the link can be verified against *)

(** What [Path.resolve] answers is made of entry names and crosses no
    symbolic link. *)
Lemma walk_canonical (strict : bool) (fs : FS) :
  ∀ (fuel : nat) (cur : loc) (comps : list string) (l : loc),
    walk strict true fuel fs cur comps = Ok l →
    canonical fs (mkPath true cur) → canonical fs (mkPath true l).
Proof.
  intros fuel. induction fuel as [fuel IHfuel] using lt_wf_ind.
  intros cur comps. revert cur.
  induction comps as [|c rest IHrest]; intros cur l.
  { rewrite walk_nil. now intros [= <-]. }
  rewrite walk_cons.
  destruct (skipped c) eqn:Hs; [apply IHrest|].
  destruct (bool_decide (c = dotdot)) eqn:Hd.
  { intros E (_ & Hplain & Hnl). apply (IHrest _ _ E).
    cbn [parts] in *. split; [reflexivity|]. split.
    - rewrite removelast_firstn_len. now apply Forall_take.
    - intros k t Hk. cbn [parts] in Hk |- *.
      rewrite removelast_firstn_len in *.
      rewrite length_take in Hk. rewrite take_take.
      replace (k `min` Init.Nat.pred (length cur)) with k by lia.
      apply Hnl. lia. }
  assert (Hc : plain c = true) by (unfold plain; now rewrite Hs, Hd).
  assert (Hnext : (∀ t, fs !! (cur ++ [c]) ≠ Some (Link t)) →
                  canonical fs (mkPath true cur) →
                  canonical fs (mkPath true (cur ++ [c]))).
  { intros Hno (_ & Hplain & Hnl). cbn [parts] in *.
    split; [reflexivity|]. split.
    - apply Forall_app. split; [exact Hplain|]. now constructor.
    - intros k t Hk. cbn [parts] in Hk |- *.
      rewrite length_app in Hk. simpl in Hk.
      destruct (decide (k ≤ length cur)%nat) as [Hle|Hgt].
      + rewrite take_app_le by exact Hle. apply Hnl. lia.
      + rewrite take_ge by (rewrite length_app; simpl; lia). apply Hno. }
  destruct (fs !! (cur ++ [c])) as [[| |t]|] eqn:E.
  - intros Hw Hcan. apply (IHrest _ _ Hw). apply Hnext; [discriminate|exact Hcan].
  - destruct (_ && _); [discriminate|].
    intros Hw Hcan. apply (IHrest _ _ Hw). apply Hnext; [discriminate|exact Hcan].
  - cbn [negb]. rewrite andb_false_r.
    destruct fuel as [|fuel']; [discriminate|].
    intros Hw Hcan. apply (IHfuel fuel' ltac:(lia) _ _ _ Hw).
    destruct (absolute t); [|exact Hcan].
    split; [reflexivity|]. split; [constructor|].
    intros k t0 Hk. cbn [parts] in Hk. simpl in Hk. lia.
  - destruct (_ && _); [discriminate|].
    intros Hw Hcan. apply (IHrest _ _ Hw). apply Hnext; [discriminate|exact Hcan].
Qed.

Section Canonical.

Context (env : Env).

(** X11: [_create_or_update_symlink] verifies the link by comparing what the
    link resolves to with the target path as it was given.  So, for a link
    path that is anchored, the call returns only if the target path is its
    own canonical form: anchored, without [".."], and crossing no symbolic
    link. *)
Theorem reconcile_needs_a_canonical_target
  (observe : nat → bool → bool) (link_path target_path : Path)
  (link_name : string) (w w' : World) (u : ())
  (Hlink : absolute link_path = true)
  (Hrun : _create_or_update_symlink env observe link_path target_path
            link_name w = (Ok u, w')) :
  canonical (fsys w') target_path.
Proof.
  apply reconcile_inv in Hrun as (_ & _ & _ & _ & _ & _ & _ & Hres & _).
  unfold fs_resolve, start in Hres. rewrite Hlink in Hres.
  destruct (walk false true MAXSYMLINKS (fsys w') [] (parts link_path))
    as [l|] eqn:E; [|discriminate].
  injection Hres as <-. apply (walk_canonical _ _ _ _ _ _ E).
  split; [reflexivity|]. split; [constructor|].
  intros k t Hk. simpl in Hk. lia.
Qed.

End Canonical.

(** ** Setting up a clean project *)

Section Children.

Context (env : Env) (fs : FS) (lp : loc) (c : string).
Hypothesis Hlp : Forall (λ c, plain c = true) lp.
Hypothesis Hc : plain c = true.
Hypothesis Hdir : directory_at fs lp.

(** An entry of a directory that is not a link is found where it is. *)
Lemma locate_child (follow : bool) :
  no_link_at fs (lp ++ [c]) →
  locate follow (cwd env) fs (mkPath true (lp ++ [c])) = Ok (lp ++ [c]).
Proof.
  intros Hno. unfold locate, start. cbn [absolute parts].
  rewrite directory_at_walk by assumption.
  apply plain_inv in Hc as [Hs Hd]. rewrite walk_cons, Hs, Hd.
  rewrite bool_decide_eq_true_2 by reflexivity.
  rewrite andb_false_r, walk_nil.
  destruct (fs !! (lp ++ [c])) as [[| |t]|] eqn:E; try reflexivity.
  now destruct (Hno t).
Qed.


Lemma stat_child (follow : bool) :
  no_link_at fs (lp ++ [c]) →
  stat follow (cwd env) fs (mkPath true (lp ++ [c]))
  = match fs !! (lp ++ [c]) with Some nd => Ok nd | None => Err ENOENT end.
Proof.
  intros Hno. unfold stat. rewrite locate_child by exact Hno.
  now rewrite node_at_snoc.
Qed.





End Children.




(** *** What an insertion keeps *)







Section Phases.

Context (env : Env) (self : StorageManager) (lr lc lm : loc) (pn : string).
Hypothesis Hroot_eq : project_root self = mkPath true lr.
Hypothesis Hlink_eq : neurolora_link self = mkPath true (lr ++ [".neurolora"]).
Hypothesis Hdocs_eq : project_docs_dir self = mkPath true (lc ++ [pn]).
Hypothesis Hmod_eq : module_dir env = mkPath true lm.
Hypothesis Hlr : Forall (λ c, plain c = true) lr.
Hypothesis Hlc : Forall (λ c, plain c = true) lc.
Hypothesis Hlm : Forall (λ c, plain c = true) lm.
Hypothesis Hpn : plain pn = true.

Local Abbreviation ld := (lc ++ [pn]).
Local Abbreviation marker := ((lc ++ [pn]) ++ [".initialized"]).
Local Abbreviation lnk := (lr ++ [".neurolora"]).





Local Abbreviation tdir := (lm ++ ["templates"]).
Local Abbreviation rel :=
  (relpath (cwd env) (mkPath true (lc ++ [pn]))
     (parent (mkPath true (lr ++ [".neurolora"])))).












End Phases.







(** ** From construction to a settled project *)

Section Startup.

Context (env : Env) (lh lr lm : loc) (sub : option string).
Hypothesis Hhome : home env = Some (mkPath true lh).
Hypothesis Hlh : Forall (λ c, plain c = true) lh.

Local Abbreviation self := (layout (mkPath true lh) (mkPath true lr) sub).
Local Abbreviation lc := (lh ++ [".mcp-docs"]).




End Startup.


(** ** A regular file where the documents directory should be *)

Section Refusal.

Context (env : Env) (observe : nat → bool → bool) (self : StorageManager).

(** X14: When a regular file has the name of the documents directory,
    [_create_directories] raises [FileExistsError] for it, and so does
    [setup], on any backend: nothing is changed, no existence check is
    made, and the failure is logged. *)
Theorem documents_directory_taken_by_a_file
  (lc : loc) (pn : string) (c : content) (w : World)
  (Hdocs_eq : project_docs_dir self = mkPath true (lc ++ [pn]))
  (Hlc : Forall (λ c, plain c = true) lc)
  (Hpn : plain pn = true)
  (Hcache : directory_at (fsys w) lc)
  (Hfile : fsys w !! (lc ++ [pn]) = Some (File c)) :
  let e := OSError EEXIST (project_docs_dir self) in
  let w' := {| fsys := fsys w; nobs := nobs w;
               trace := trace w
                        ++ [Log ERROR ("Error creating directories: "
                                       +:+ str_exc e)] |} in
  _create_directories env observe self w = (Err e, w')
  ∧ setup env observe self w = (Err e, w').
Proof.
  cbv zeta.
  assert (Hno : no_link_at (fsys w) (lc ++ [pn])) by (intros t; congruence).
  assert (Hmk : os_mkdir (cwd env) (fsys w) (project_docs_dir self)
                = Err EEXIST).
  { rewrite Hdocs_eq. unfold os_mkdir.
    rewrite (locate_child env (fsys w) lc pn Hlc Hpn Hcache false Hno).
    now rewrite node_at_snoc, Hfile. }
  assert (Hdir : fs_is_dir (cwd env) (fsys w) (project_docs_dir self) = false).
  { rewrite Hdocs_eq. unfold fs_is_dir.
    rewrite (stat_child env (fsys w) lc pn Hlc Hpn Hcache true Hno).
    now rewrite Hfile. }
  assert (Hrun : path_mkdir_parents env (project_docs_dir self) w
                 = (Err (OSError EEXIST (project_docs_dir self)), w)).
  { unfold path_mkdir_parents.
    destruct (length _); simpl; unfold bind, get_fs;
      now rewrite Hmk, Hdir. }
  assert (Hdirs : _create_directories env observe self w
                  = (Err (OSError EEXIST (project_docs_dir self)),
                     {| fsys := fsys w; nobs := nobs w;
                        trace := trace w
                          ++ [Log ERROR
                                ("Error creating directories: "
                                 +:+ str_exc (OSError EEXIST
                                                (project_docs_dir self)))] |})).
  { unfold _create_directories, try_except. unfold bind at 1.
    rewrite Hrun. reflexivity. }
  split; [exact Hdirs|].
  unfold setup. unfold bind at 1. now rewrite Hdirs.
Qed.

End Refusal.

(** ** The further properties at work on the concrete machine *)





Lemma create_directories_establishes_witness :
  fs_is_dir (cwd env_tmp) (fsys w_dirs_ready) docs_app = true
  ∧ os_read (cwd env_tmp) (fsys w_dirs_ready) (docs_app // ".initialized")
    = Ok (Text "initialized").
Proof.
  assert (H : _create_directories env_tmp immediate sm_app (world0 fs_fresh)
              = (Ok (), w_dirs_ready)) by by_compute.
  destruct (create_directories_establishes env_tmp sm_app immediate
              (world0 fs_fresh) w_dirs_ready () H) as (Hdir & Hread & _).
  split; [exact Hdir|exact Hread].
Defined.

Lemma setup_establishes_link_witness :
  fs_is_symlink (cwd env_tmp) (fsys w_set_up) link_app = true
  ∧ fs_resolve (cwd env_tmp) (fsys w_set_up) link_app = Ok docs_app.
Proof.
  assert (H : setup env_tmp immediate sm_app (world0 fs_fresh)
              = (Ok (), w_set_up)) by by_compute.
  destruct (setup_establishes_link env_tmp sm_app (world0 fs_fresh) w_set_up
              () H) as (_ & Hsym & Hres).
  split; [exact Hsym|exact Hres].
Defined.

Lemma settled_is_stable_witness :
  ∃ w', setup env_tmp immediate sm_app w_set_up = (Ok (), w')
        ∧ fsys w' = fsys w_set_up.
Proof.
  apply (settled_is_stable env_tmp sm_app w_set_up).
  apply (setup_inv env_tmp sm_app (world0 fs_fresh) w_set_up ()).
  - reflexivity.
  - exact fs_fresh_is_fresh.
  - by_compute.
Defined.

Lemma create_directories_waits_until_visible_witness :
  let r := _create_directories env_tmp (hidden_between 1 4) sm_app
             (world0 fs_fresh) in
  fst r = Ok () ∧ nobs (snd r) = 5 ∧ sleeps (trace (snd r)) = 3
  ∧ slept (trace (snd r)) = 300.
Proof.
  assert (H1 : path_mkdir_parents env_tmp docs_app (world0 fs_fresh)
               = (Ok (), w_dirs_made)) by by_compute.
  assert (H2 : os_write (cwd env_tmp) (fsys w_dirs_made)
                 (docs_app // ".initialized") (Text "initialized")
               = Ok fs_marked) by by_compute.
  destruct (create_directories_waits_until_visible env_tmp sm_app
              (hidden_between 1 4) (world0 fs_fresh) w_dirs_made fs_marked 3
              H1 H2) as (Hr & _ & Hn & Hs & Hms).
  - vm_compute. reflexivity.
  - lia.
  - intros k Hk. cbn [nobs world0] in Hk. unfold hidden_between.
    destruct (Nat.leb_spec 1 k); [|lia].
    destruct (Nat.ltb_spec k 4); [reflexivity|lia].
  - vm_compute. reflexivity.
  - cbv zeta. split; [exact Hr|]. split; [exact Hn|].
    split; [exact Hs|exact Hms].
Defined.

Lemma directory_at_app : directory_at (fsys w_dirs_made) loc_app.
Proof.
  intros k Hk. unfold loc_app in *. simpl in Hk.
  destruct k as [|[|[|k]]]; try lia; vm_compute; reflexivity.
Qed.

Lemma directory_at_docs : directory_at (fsys w_dirs_made) loc_docs.
Proof.
  intros k Hk. unfold loc_docs in *. simpl in Hk.
  destruct k as [|[|[|[|[|k]]]]]; try lia; vm_compute; reflexivity.
Qed.

Lemma reconcile_links_the_directories_witness :
  ∃ w',
    _create_or_update_symlink env_tmp immediate link_app docs_app ".neurolora"
      w_dirs_made = (Ok (), w')
    ∧ fsys w' !! (loc_app ++ [".neurolora"])
      = Some (Link (parse "../home/.mcp-docs/app"))
    ∧ fs_is_dir (cwd env_tmp) (fsys w') link_app = true.
Proof.
  destruct (reconcile_links_the_directories env_tmp loc_app loc_docs
              ".neurolora" ".neurolora" w_dirs_made)
    as (w' & Hrun & Hfs & _ & Hdir & _).
  - repeat constructor.
  - reflexivity.
  - repeat constructor.
  - exact directory_at_app.
  - exact directory_at_docs.
  - left. vm_compute. reflexivity.
  - exists w'. split; [exact Hrun|]. split; [|exact Hdir].
    rewrite Hfs. apply lookup_insert_eq.
Defined.

Lemma reconcile_needs_a_canonical_target_witness :
  canonical (fsys w_linked) docs_app.
Proof.
  apply (reconcile_needs_a_canonical_target env_tmp immediate link_app docs_app
           ".neurolora" (world0 fs_fresh) w_linked ()).
  - reflexivity.
  - by_compute.
Defined.





Lemma documents_directory_taken_by_a_file_witness :
  fst (setup env_tmp immediate sm_app (world0 fs_docs_is_file))
  = Err (OSError EEXIST docs_app)
  ∧ fsys (snd (setup env_tmp immediate sm_app (world0 fs_docs_is_file)))
    = fs_docs_is_file.
Proof.
  destruct (documents_directory_taken_by_a_file env_tmp immediate sm_app
              ["tmp"; "home"; ".mcp-docs"] "app" (Text "notes")
              (world0 fs_docs_is_file)) as [_ Hsetup].
  - reflexivity.
  - repeat constructor.
  - reflexivity.
  - intros k Hk. simpl in Hk.
    destruct k as [|[|[|[|k]]]]; try lia; vm_compute; reflexivity.
  - vm_compute. reflexivity.
  - rewrite Hsetup. split; reflexivity.
Defined.

